(** * Anti-slop system: palette generator and Design DNA validator

    A shallow embedding of the two executable scripts of the repository,

    - [scripts/generate-palette.ts]: [normalizeHue], [ensureContrast],
      [generatePalette];
    - [scripts/validate-dna.ts]: [validateDesignDNA];

    followed by the properties the specification states about them.

    Modelling conventions.

    - A JavaScript [number] is a rational in canonical form ([Qc]), the
      exact value of a finite double: equality of numbers is Leibniz
      equality and the comparisons are the exact ones.  [NaN] and the
      infinities are outside the model.
    - Hue arithmetic is the arithmetic of doubles: a sum or a difference
      of hues is rounded to the nearest double, ties to even, by [f64]
      ([js_add], [js_sub]), and [%] is exact, as it is in IEEE arithmetic.
      Exponents are not bounded in [f64]: the sums of this program are 0
      or lie between 2^-48 and the largest double in absolute value, where
      the bounds of the format play no part.
    - The lightness arithmetic of [ensureContrast] ([l + direction * 0.02])
      and the decimal literals of the palette tables are exact rationals.
    - The [chroma-js] package is not part of the repository.  Its two entry
      points used by the scripts, [chroma.oklch] and [chroma.contrast], are
      the fields of the class [ChromaJs]; every definition and theorem that
      depends on a contrast ratio is parametric in an arbitrary instance.
    - A JavaScript object used as a dictionary ([Record<string, T>]) is a
      [gmap string T]; only own properties are modelled.
    - A property of a parsed JSON document may be absent: such a property
      has an [option] type, and reading a property of an absent object
      raises [TypeError], as it does in JavaScript.  A property that is
      present has the type the [DesignDNA] interface gives it.
    - A string is a [string] of bytes; [toLowerCase] acts on the ASCII
      letters.
    - [ensureContrast] is always called with its three arguments: the
      default value of [minRatio] is not modelled. *)

From Stdlib Require Import QArith Qcanon Qcabs Qabs Qpower Qround Lia Lqa Ascii String.
From Equations Require Import Equations.
From stdpp Require Import base decidable option numbers list strings gmap.

Local Open Scope Qc_scope.

(** ** JavaScript numbers *)

(** A decimal literal of the source, as a canonical rational. *)
Definition num (q : Q) : Qc := Q2Qc q.
Arguments num q%_Q.

(** Rounding towards zero, the rounding of the quotient in JavaScript's [%]. *)
Definition Qtrunc (q : Q) : Z := Z.quot (Qnum q) (Zpos (Qden q)).

(** [a % b] for a divisor other than zero: the remainder has the sign of
    the dividend. *)
Definition js_rem (a b : Qc) : Qc := a - b * Qc_of_Z (Qtrunc (this (a / b))).

(** The position of the leading bit of a number other than zero:
    [2 ^ ilog2 q <= |q| < 2 ^ (ilog2 q + 1)]. *)
Definition ilog2 (q : Q) : Z :=
  let k := (Z.log2 (Z.abs (Qnum q)) - Z.log2 (Zpos (Qden q)))%Z in
  if Qle_bool (2 ^ k) (Qabs q) then k else (k - 1)%Z.

(** Rounding to the nearest integer, ties to the even one. *)
Definition round_half_even (x : Q) : Z :=
  let f := Qfloor x in
  match (x - inject_Z f ?= 1 # 2)%Q with
  | Lt => f
  | Gt => (f + 1)%Z
  | Eq => if Z.even f then f else (f + 1)%Z
  end.

(** Rounding to the nearest double: a significand of 53 bits, ties to
    even. *)
Definition f64 (q : Qc) : Qc :=
  if Qeq_bool q 0 then q
  else let e := (ilog2 q - 52)%Z in
       Q2Qc (inject_Z (round_half_even (q / 2 ^ e)) * 2 ^ e).

(** [a + b] and [a - b] on doubles. *)
Definition js_add (a b : Qc) : Qc := f64 (a + b).
Definition js_sub (a b : Qc) : Qc := f64 (a - b).

(** Transfer of a goal on canonical rationals to plain rationals. *)
Ltac qc2q :=
  unfold num, Qclt, Qcle, Qcminus, Qcplus, Qcmult, Qcopp, Q2Qc in *;
  cbn [this] in *;
  rewrite ?Qred_correct in *.

(** ** The [chroma-js] interface *)

Class ChromaJs := {
  chroma_color : Type;
  (** [chroma.oklch(l, c, h)] *)
  chroma_oklch : Qc -> Qc -> Qc -> chroma_color;
  (** [chroma.contrast(a, b)] *)
  chroma_contrast : chroma_color -> chroma_color -> Qc
}.

(** ** generate-palette.ts *)

Record OKLCHColor := { l : Qc; c : Qc; h : Qc }.

Record GeneratedPalette := {
  primary : OKLCHColor;
  secondary : OKLCHColor;
  accent : OKLCHColor;
  background : OKLCHColor;
  text : OKLCHColor;
  muted : OKLCHColor;
  border : OKLCHColor
}.

Inductive HarmonyMode :=
| monochromatic
| analogous
| split_complementary
| triadic.

Definition normalizeHue (h : Qc) : Qc :=
  js_rem (js_add (js_rem h (num 360)) (num 360)) (num 360).

Section Generator.
Context {chroma : ChromaJs}.

Definition getContrastRatio (color1 color2 : OKLCHColor) : Qc :=
  chroma_contrast
    (chroma_oklch (l color1) (c color1) (h color1))
    (chroma_oklch (l color2) (c color2) (h color2)).

(** [const direction = bg.l > 0.5 ? -1 : 1] *)
Definition direction (bg : OKLCHColor) : Qc :=
  if bool_decide (num 0.5 < l bg) then num (-1) else num 1.

(** The test of the [while] loop of [ensureContrast]. *)
Definition loop_test (bg : OKLCHColor) (minRatio : Qc) (adjusted : OKLCHColor) : bool :=
  bool_decide (getContrastRatio adjusted bg < minRatio)
  && bool_decide (num 0.05 < l adjusted)
  && bool_decide (l adjusted < num 0.95).

(** The body of the loop: [adjusted.l += direction * 0.02]. *)
Definition loop_body (bg : OKLCHColor) (adjusted : OKLCHColor) : OKLCHColor :=
  {| l := l adjusted + direction bg * num 0.02; c := c adjusted; h := h adjusted |}.

(** Distance of the lightness to the boundary the loop walks towards. *)
Definition headroom (bg : OKLCHColor) (adjusted : OKLCHColor) : Qc :=
  if bool_decide (num 0.5 < l bg) then l adjusted - num 0.05 else num 0.95 - l adjusted.

(** The number of further iterations the lightness bounds alone allow:
    the variant of the loop. *)
Definition steps_left (bg : OKLCHColor) (adjusted : OKLCHColor) : nat :=
  if bool_decide (num 0.05 < l adjusted) && bool_decide (l adjusted < num 0.95)
  then S (Z.to_nat (Qfloor (this (headroom bg adjusted * num 50))))
  else O.

Lemma Qfloor_pred (x : Q) : Qfloor (x - 1) = (Qfloor x - 1)%Z.
Proof.
  destruct x as [n d]. unfold Qfloor, Qminus, Qplus, Qopp. cbn [Qnum Qden].
  rewrite Pos.mul_1_r, Z.mul_1_r.
  replace (n + -1 * Z.pos d)%Z with (n + (-1) * Z.pos d)%Z by lia.
  rewrite Z.div_add by lia. lia.
Qed.

(** One iteration moves the lightness 0.02 closer to the boundary. *)
Lemma headroom_loop_body bg adjusted :
  (this (headroom bg (loop_body bg adjusted) * num 50)
   == this (headroom bg adjusted * num 50) - 1)%Q.
Proof.
  unfold headroom, loop_body, direction. cbn [l].
  destruct (bool_decide (num 0.5 < l bg)); qc2q; field.
Qed.

Lemma headroom_pos bg adjusted :
  num 0.05 < l adjusted -> l adjusted < num 0.95 ->
  (0 < this (headroom bg adjusted * num 50))%Q.
Proof.
  unfold headroom. intros Hlo Hhi.
  destruct (bool_decide (num 0.5 < l bg)); qc2q; lra.
Qed.

Lemma headroom_lt_45 bg adjusted :
  num 0.05 < l adjusted -> l adjusted < num 0.95 ->
  (this (headroom bg adjusted * num 50) < 45)%Q.
Proof.
  unfold headroom. intros Hlo Hhi.
  destruct (bool_decide (num 0.5 < l bg)); qc2q; lra.
Qed.

Lemma loop_test_in_range bg minRatio adjusted :
  loop_test bg minRatio adjusted = true ->
  num 0.05 < l adjusted /\ l adjusted < num 0.95.
Proof.
  unfold loop_test. intros Ht.
  apply andb_prop in Ht as [Ht Hhi]. apply andb_prop in Ht as [_ Hlo].
  apply bool_decide_eq_true in Hlo, Hhi. auto.
Qed.

(** The variant decreases at every iteration. *)
Lemma steps_left_decreases bg minRatio adjusted :
  loop_test bg minRatio adjusted = true ->
  (steps_left bg (loop_body bg adjusted) < steps_left bg adjusted)%nat.
Proof.
  intros Ht. destruct (loop_test_in_range _ _ _ Ht) as [Hlo Hhi].
  unfold steps_left.
  rewrite (bool_decide_eq_true_2 _ Hlo), (bool_decide_eq_true_2 _ Hhi).
  cbn [andb].
  destruct (bool_decide (num 0.05 < l (loop_body bg adjusted))
            && bool_decide (l (loop_body bg adjusted) < num 0.95)) eqn:Hin; [|lia].
  apply andb_prop in Hin as [Hlo' Hhi'].
  apply bool_decide_eq_true in Hlo', Hhi'.
  apply -> Nat.succ_lt_mono.
  pose proof (headroom_pos bg _ Hlo' Hhi') as Hx.
  rewrite (Qfloor_comp _ _ (headroom_loop_body bg adjusted)) in *.
  rewrite headroom_loop_body in Hx. rewrite Qfloor_pred.
  set (y := this (headroom bg adjusted * num 50)) in *.
  assert (H1 : (1 <= y)%Q) by lra.
  apply (Qfloor_resp_le 1 y) in H1. change (Qfloor 1) with 1%Z in H1. lia.
Qed.

(** The [while] loop of [ensureContrast], by recursion on its variant. *)
Equations? ensureContrast_loop (bg : OKLCHColor) (minRatio : Qc) (adjusted : OKLCHColor)
  : OKLCHColor by wf (steps_left bg adjusted) lt :=
ensureContrast_loop bg minRatio adjusted
  with Equations.Prop.Logic.inspect (loop_test bg minRatio adjusted) := {
  | exist _ true Ht => ensureContrast_loop bg minRatio (loop_body bg adjusted)
  | exist _ false _ => adjusted
}.
Proof. eapply steps_left_decreases; eassumption. Qed.

(** The same loop run for at most [fuel] iterations: [None] when the
    fuel runs out.  It evaluates by computation. *)
Fixpoint ensureContrast_fuel (fuel : nat) (bg : OKLCHColor) (minRatio : Qc)
  (adjusted : OKLCHColor) : option OKLCHColor :=
  match fuel with
  | O => None
  | S fuel' =>
      if loop_test bg minRatio adjusted
      then ensureContrast_fuel fuel' bg minRatio (loop_body bg adjusted)
      else Some adjusted
  end.

(** [let adjusted = { ...fg }; ...; return adjusted]. *)
Definition ensureContrast (fg bg : OKLCHColor) (minRatio : Qc) : OKLCHColor :=
  ensureContrast_loop bg minRatio fg.

(** The [switch (mode)] of [generatePalette]: the palette as first built,
    [h] being the normalised base hue. *)
Definition initial_palette (h : Qc) (mode : HarmonyMode) (isDark : bool) : GeneratedPalette :=
  let bgL := if isDark then num 0.12 else num 0.98 in
  let textL := if isDark then num 0.92 else num 0.18 in
  let bgC := if isDark then num 0.02 else num 0.01 in
  match mode with
  | monochromatic =>
      {| primary := {| l := if isDark then num 0.65 else num 0.45; c := num 0.15; h := h |};
         secondary := {| l := if isDark then num 0.55 else num 0.55; c := num 0.10; h := h |};
         accent := {| l := if isDark then num 0.70 else num 0.55; c := num 0.20;
                      h := normalizeHue (js_add h (num 180)) |};
         background := {| l := bgL; c := bgC; h := h |};
         text := {| l := textL; c := num 0.02; h := h |};
         muted := {| l := if isDark then num 0.35 else num 0.65; c := num 0.04; h := h |};
         border := {| l := if isDark then num 0.25 else num 0.85; c := num 0.02; h := h |} |}
  | analogous =>
      {| primary := {| l := if isDark then num 0.65 else num 0.45; c := num 0.15; h := h |};
         secondary := {| l := if isDark then num 0.60 else num 0.50; c := num 0.12;
                         h := normalizeHue (js_add h (num 30)) |};
         accent := {| l := if isDark then num 0.70 else num 0.55; c := num 0.18;
                      h := normalizeHue (js_sub h (num 30)) |};
         background := {| l := bgL; c := bgC; h := h |};
         text := {| l := textL; c := num 0.02; h := h |};
         muted := {| l := if isDark then num 0.35 else num 0.65; c := num 0.04;
                     h := normalizeHue (js_add h (num 15)) |};
         border := {| l := if isDark then num 0.25 else num 0.85; c := num 0.02; h := h |} |}
  | split_complementary =>
      let complement := normalizeHue (js_add h (num 180)) in
      {| primary := {| l := if isDark then num 0.65 else num 0.45; c := num 0.15; h := h |};
         secondary := {| l := if isDark then num 0.60 else num 0.52; c := num 0.12;
                         h := normalizeHue (js_add complement (num 30)) |};
         accent := {| l := if isDark then num 0.70 else num 0.58; c := num 0.18;
                      h := normalizeHue (js_sub complement (num 30)) |};
         background := {| l := bgL; c := bgC; h := h |};
         text := {| l := textL; c := num 0.02; h := h |};
         muted := {| l := if isDark then num 0.35 else num 0.65; c := num 0.04; h := h |};
         border := {| l := if isDark then num 0.25 else num 0.85; c := num 0.02; h := h |} |}
  | triadic =>
      {| primary := {| l := if isDark then num 0.65 else num 0.45; c := num 0.15; h := h |};
         secondary := {| l := if isDark then num 0.60 else num 0.50; c := num 0.12;
                         h := normalizeHue (js_add h (num 120)) |};
         accent := {| l := if isDark then num 0.70 else num 0.55; c := num 0.18;
                      h := normalizeHue (js_add h (num 240)) |};
         background := {| l := bgL; c := bgC; h := h |};
         text := {| l := textL; c := num 0.02; h := normalizeHue (js_add h (num 120)) |};
         muted := {| l := if isDark then num 0.35 else num 0.65; c := num 0.04; h := h |};
         border := {| l := if isDark then num 0.25 else num 0.85; c := num 0.02; h := h |} |}
  end.

(** [palette.text = ...]: assignment to one role of the palette. *)
Definition set_text (v : OKLCHColor) (p : GeneratedPalette) : GeneratedPalette :=
  {| primary := primary p; secondary := secondary p; accent := accent p;
     background := background p; text := v; muted := muted p; border := border p |}.

Definition set_primary (v : OKLCHColor) (p : GeneratedPalette) : GeneratedPalette :=
  {| primary := v; secondary := secondary p; accent := accent p;
     background := background p; text := text p; muted := muted p; border := border p |}.

Definition generatePalette (baseHue : Qc) (mode : HarmonyMode) (isDark : bool)
  : GeneratedPalette :=
  let h := normalizeHue baseHue in
  let palette := initial_palette h mode isDark in
  let palette := set_text (ensureContrast (text palette) (background palette) (num 7.0)) palette in
  let palette :=
    set_primary (ensureContrast (primary palette) (background palette) (num 4.5)) palette in
  palette.

End Generator.

(** ** validate-dna.ts *)

(** *** Strings *)

(** [String.prototype.toLowerCase], on the ASCII letters. *)
Definition lower_ascii (a : ascii) : ascii :=
  let n := nat_of_ascii a in
  if (65 <=? n)%nat && (n <=? 90)%nat then ascii_of_nat (n + 32) else a.

Fixpoint toLowerCase (s : string) : string :=
  match s with
  | EmptyString => EmptyString
  | String a s' => String (lower_ascii a) (toLowerCase s')
  end.

(** [s.includes(pat)]: [pat] occurs in [s] as a substring. *)
Fixpoint includes (s pat : string) : bool :=
  String.prefix pat s
  || match s with
     | EmptyString => false
     | String _ s' => includes s' pat
     end.

(** The double quote character, for the messages that quote a value. *)
Definition dquote : string := String (ascii_of_nat 34) EmptyString.

(** The two conversions of a number to text used in the messages:
    [x.toFixed(n)] and the conversion of a template literal. *)
Class NumberFormat := {
  toFixed : Qc -> nat -> string;
  number_to_string : option Qc -> string
}.

(** *** Exceptions and the two message lists *)

(** A [TypeError], with the name of the absent object that was read. *)
Inductive exn := TypeError (what : string).

Inductive completion (A : Type) :=
| Return (a : A)
| Throw (e : exn).
Arguments Return {A} a.
Arguments Throw {A} e.

(** The mutable arrays [errors] and [warnings] of [validateDesignDNA]. *)
Record log := { log_errors : list string; log_warnings : list string }.

(** A computation that may push messages and may throw. *)
Definition M (A : Type) : Type := log -> completion (A * log).

Definition ret {A} (a : A) : M A := fun s => Return (a, s).

Definition bind {A B} (m : M A) (k : A -> M B) : M B :=
  fun s => match m s with
           | Return (a, s') => k a s'
           | Throw e => Throw e
           end.

Declare Scope M_scope.
Delimit Scope M_scope with M.
Notation "'let*' x ':=' m 'in' k" := (bind m (fun x => k))
  (at level 10, x name, m at level 100, k at level 200) : M_scope.

Definition throw {A} (e : exn) : M A := fun _ => Throw e.

(** [errors.push(msg)] and [warnings.push(msg)]. *)
Definition push_error (msg : string) : M unit :=
  fun s => Return (tt, {| log_errors := log_errors s ++ [msg]; log_warnings := log_warnings s |}).

Definition push_warning (msg : string) : M unit :=
  fun s => Return (tt, {| log_errors := log_errors s; log_warnings := log_warnings s ++ [msg] |}).

(** [errors.length] *)
Definition errors_length : M nat := fun s => Return (length (log_errors s), s).

(** Reading a property of the object [o], itself the property [name] of
    its parent: a [TypeError] when [o] is [undefined]. *)
Definition prop_of {A} (name : string) (o : option A) : M A :=
  match o with
  | Some a => ret a
  | None => throw (TypeError name)
  end.

Definition when (b : bool) (m : M unit) : M unit := if b then m else ret tt.

(** *** The Design DNA document *)

Record ContrastRatios := {
  textOnBackground : option Qc;
  accentOnBackground : option Qc
}.

Record ColorTokens := {
  model : option string;
  palette : option (gmap string OKLCHColor);
  contrastRatios : option ContrastRatios
}.

Record Scale := {
  scale_base : option Qc;
  ratio : option Qc;
  ratioName : option string
}.

Record Families := {
  heading : option (list string);
  body : option (list string);
  mono : option (list string)
}.

Record Typography := {
  scale : option Scale;
  families : option Families
}.

Record Spring := { stiffness : Qc; damping : Qc; mass : Qc }.

Record Motion := {
  springs : option (gmap string Spring);
  defaultSpring : option string;
  reducedMotion : option string
}.

Record Spacing := {
  spacing_base : option Qc;
  spacing_scale : option string
}.

Record Geometry := {
  borderRadius : option (gmap string string);
  spacing : option Spacing
}.

Record Primitives := {
  color : option ColorTokens;
  typography : option Typography;
  motion : option Motion;
  geometry : option Geometry
}.

Record LayoutJitter := {
  maxOffset : option Qc;
  rotationRange : option (list Qc)
}.

Record ColorVariation := {
  hueShift : option Qc;
  lightnessVariation : option Qc
}.

Record Noise := {
  seed : option string;
  layoutJitter : option LayoutJitter;
  colorVariation : option ColorVariation
}.

Record Generative := { noise : option Noise }.

Record Meta := {
  projectName : option string;
  version : option string;
  personality : option (list string);
  antiPatterns : option (list string)
}.

Record DesignDNA := {
  meta : option Meta;
  primitives : option Primitives;
  generative : option Generative
}.

Record Scores := {
  colorSystem : Z;
  typographySystem : Z;
  motionSystem : Z;
  geometricSystem : Z;
  uniqueness : Z;
  technicalValidity : Z
}.

Record ValidationResult := {
  valid : bool;
  errors : list string;
  warnings : list string;
  scores : Scores
}.

Definition BANNED_FONTS : list string :=
  ["inter"; "roboto"; "open sans"; "poppins"; "montserrat";
   "lato"; "nunito"; "source sans pro"; "raleway"; "oswald"].

Definition GENERIC_PERSONALITY_WORDS : list string :=
  ["modern"; "clean"; "professional"; "simple"; "elegant";
   "minimalist"; "sleek"; "beautiful"; "nice"; "good"].

(** [!x] for an optional number, string and object. *)
Definition falsy_number (x : option Qc) : bool :=
  match x with
  | None => true
  | Some v => bool_decide (v = num 0)
  end.

Definition falsy_string (x : option string) : bool :=
  match x with
  | None => true
  | Some s => bool_decide (s = EmptyString)
  end.

Definition falsy_object {A} (x : option A) : bool :=
  match x with
  | None => true
  | Some _ => false
  end.

(** [BANNED_FONTS.some(f => font?.includes(f))] *)
Definition is_banned (font : option string) : bool :=
  existsb (fun f => match font with
                    | Some s => includes s f
                    | None => false
                    end) BANNED_FONTS.

(** [Object.values(scores)] *)
Definition Object_values (s : Scores) : list Z :=
  [colorSystem s; typographySystem s; motionSystem s;
   geometricSystem s; uniqueness s; technicalValidity s].

(** [Math.min(...xs)] on a list of integers; the empty case (Infinity in
    JavaScript) does not arise: [Object_values] has six entries. *)
Definition Math_min (xs : list Z) : Z :=
  match xs with
  | [] => 0
  | x :: xs' => foldl Z.min x xs'
  end.

(** The messages that the properties below refer to. *)
Definition color_model_message : string :=
  "Color model must be " +:+ dquote +:+ "oklch" +:+ dquote.

Definition heading_font_message (headingFont : option string) : string :=
  "Heading font " +:+ dquote +:+ default "undefined"%string headingFont
  +:+ dquote +:+ " is banned (too common)".

Definition body_font_message (bodyFont : option string) : string :=
  "Body font " +:+ dquote +:+ default "undefined"%string bodyFont
  +:+ dquote +:+ " is banned (too common)".

Section Validator.
Context {chroma : ChromaJs} {fmt : NumberFormat}.
Local Open Scope M_scope.
Local Open Scope Z_scope.

(** [Math.abs(calculated - stated) > 0.5]; with [stated] undefined the
    difference is [NaN] and the comparison is false. *)
Definition contrast_drifts (calculated : Qc) (stated : option Qc) : bool :=
  match stated with
  | Some s => bool_decide (num 0.5 < Qcabs (calculated - s))%Qc
  | None => false
  end.

(** 1. Validate Color System *)
Definition validate_color (dna : DesignDNA) : M Z :=
  let colorScore := 4 in
  let* primitives := prop_of "primitives" (primitives dna) in
  let* color := prop_of "color" (color primitives) in
  let* colorScore :=
    if bool_decide (model color <> Some "oklch"%string)
    then let* _ := push_error color_model_message in
         ret 1
    else ret colorScore in
  let* palette := prop_of "palette" (palette color) in
  let textColor := palette !! "text"%string in
  let bgColor := palette !! "background"%string in
  match textColor, bgColor with
  | Some textColor, Some bgColor =>
      let calculatedContrast := getContrastRatio textColor bgColor in
      let* contrastRatios := prop_of "contrastRatios" (contrastRatios color) in
      let statedContrast := textOnBackground contrastRatios in
      let* colorScore :=
        if bool_decide (calculatedContrast < num 4.5)%Qc
        then let* _ := push_error ("Text contrast ratio (" +:+ toFixed calculatedContrast 2
                                   +:+ ") fails WCAG AA (needs 4.5+)") in
             ret 1
        else let* _ := when (contrast_drifts calculatedContrast statedContrast)
                         (push_warning ("Stated contrast (" +:+ number_to_string statedContrast
                                        +:+ ") differs from calculated ("
                                        +:+ toFixed calculatedContrast 2 +:+ ")")) in
             ret colorScore in
      if bool_decide (num 7 <= calculatedContrast)%Qc then ret 4
      else if bool_decide (num 4.5 <= calculatedContrast)%Qc then ret 3
      else ret colorScore
  | _, _ => ret colorScore
  end.

(** 2. Validate Typography *)
Definition validate_typography (dna : DesignDNA) : M Z :=
  let typographyScore := 4 in
  let* primitives := prop_of "primitives" (primitives dna) in
  let* typography := prop_of "typography" (typography primitives) in
  let* families := prop_of "families" (families typography) in
  let* heading := prop_of "heading" (heading families) in
  let headingFont := toLowerCase <$> head heading in
  let* body := prop_of "body" (body families) in
  let bodyFont := toLowerCase <$> head body in
  let* typographyScore :=
    if is_banned headingFont
    then let* _ := push_error (heading_font_message headingFont) in
         ret 1
    else ret typographyScore in
  let* typographyScore :=
    if is_banned bodyFont
    then if bool_decide (bodyFont <> Some "inter"%string)
         then let* _ := push_error (body_font_message bodyFont) in
              ret (Z.min typographyScore 2)
         else ret typographyScore
    else ret typographyScore in
  let* scale := prop_of "scale" (scale typography) in
  let* typographyScore :=
    if falsy_number (ratio scale)
    then let* _ := push_error "Typography must define a modular scale ratio" in
         ret 1
    else ret typographyScore in
  let* _ := when (bool_decide (length heading < 2)%nat)
              (push_warning "Heading font stack should include fallbacks") in
  ret typographyScore.

(** 3. Validate Motion *)
Definition validate_motion (dna : DesignDNA) : M Z :=
  let motionScore := 4 in
  let* primitives := prop_of "primitives" (primitives dna) in
  let* motion := prop_of "motion" (motion primitives) in
  let* motionScore :=
    if match springs motion with
       | None => true
       | Some springs => bool_decide (size springs = 0%nat)
       end
    then let* _ := push_error "Motion must define spring physics (not just easing)" in
         ret 1
    else ret motionScore in
  let* motionScore :=
    if bool_decide (reducedMotion motion <> Some "respectSystem"%string)
    then let* _ := push_warning
                     ("Consider setting reducedMotion to " +:+ dquote +:+ "respectSystem"
                      +:+ dquote +:+ " for accessibility") in
         ret (Z.min motionScore 3)
    else ret motionScore in
  let key := default "undefined"%string (defaultSpring motion) in
  let defaultSpring := springs motion ≫= (fun springs => springs !! key) in
  let* motionScore :=
    if falsy_object defaultSpring
    then let* _ := push_error ("Default spring " +:+ dquote +:+ key +:+ dquote
                               +:+ " not found in springs") in
         ret (Z.min motionScore 2)
    else ret motionScore in
  ret motionScore.

(** 4. Validate Geometry *)
Definition validate_geometry (dna : DesignDNA) : M Z :=
  let geometryScore := 4 in
  let* primitives := prop_of "primitives" (primitives dna) in
  let* geometry := prop_of "geometry" (geometry primitives) in
  let* borderRadius := prop_of "borderRadius" (borderRadius geometry) in
  let radiusValues := (map_to_list borderRadius).*2 in
  let uniqueRadii : gset string :=
    list_to_set (filter (fun v => v <> "0px"%string /\ v <> "9999px"%string) radiusValues) in
  let* geometryScore :=
    if bool_decide (size uniqueRadii < 2)%nat
    then let* _ := push_warning "Border radius should vary by component type" in
         ret 3
    else ret geometryScore in
  let* geometryScore :=
    if falsy_number (spacing geometry ≫= spacing_base)
    then let* _ := push_error "Spacing must define a base unit" in
         ret (Z.min geometryScore 2)
    else ret geometryScore in
  ret geometryScore.

(** 5. Validate Uniqueness *)
Definition validate_uniqueness (dna : DesignDNA) : M Z :=
  let uniquenessScore := 4 in
  let* meta := prop_of "meta" (meta dna) in
  let* personality := prop_of "personality" (personality meta) in
  let genericPersonality :=
    filter (fun p => toLowerCase p ∈ GENERIC_PERSONALITY_WORDS) personality in
  let* uniquenessScore :=
    if bool_decide (0 < length genericPersonality)%nat
    then let* _ := push_warning ("Generic personality words detected: "
                                 +:+ String.concat ", " genericPersonality) in
         ret (Z.min uniquenessScore 2)
    else ret uniquenessScore in
  let* antiPatterns := prop_of "antiPatterns" (antiPatterns meta) in
  let* uniquenessScore :=
    if bool_decide (length antiPatterns = 0%nat)
    then let* _ := push_error "Must define at least one anti-pattern to avoid" in
         ret (Z.min uniquenessScore 2)
    else ret uniquenessScore in
  match generative dna ≫= noise with
  | None =>
      let* _ := push_error "Generative noise configuration is required" in
      ret (Z.min uniquenessScore 2)
  | Some noise =>
      let* uniquenessScore :=
        if falsy_string (seed noise)
        then let* _ := push_error "Generative noise must include a deterministic seed" in
             ret (Z.min uniquenessScore 2)
        else ret uniquenessScore in
      let* uniquenessScore :=
        if falsy_object (layoutJitter noise)
        then let* _ := push_error "Generative noise must include layoutJitter settings" in
             ret (Z.min uniquenessScore 2)
        else ret uniquenessScore in
      ret uniquenessScore
  end.

(** The body of [validateDesignDNA], as a computation on the two lists. *)
Definition validate_all (dna : DesignDNA) : M Scores :=
  let* colorScore := validate_color dna in
  let* typographyScore := validate_typography dna in
  let* motionScore := validate_motion dna in
  let* geometryScore := validate_geometry dna in
  let* uniquenessScore := validate_uniqueness dna in
  (* 6. Technical Validity (schema already checked by Ajv) *)
  let* n := errors_length in
  ret {| colorSystem := colorScore;
         typographySystem := typographyScore;
         motionSystem := motionScore;
         geometricSystem := geometryScore;
         uniqueness := uniquenessScore;
         technicalValidity := if bool_decide (n = 0%nat) then 4 else 2 |}.

Definition validateDesignDNA (dna : DesignDNA) : completion ValidationResult :=
  match validate_all dna {| log_errors := []; log_warnings := [] |} with
  | Throw e => Throw e
  | Return (scores, s) =>
      let allScores := Object_values scores in
      let minScore := Math_min allScores in
      Return {| valid := bool_decide (3 <= minScore) && bool_decide (length (log_errors s) = 0%nat);
                errors := log_errors s;
                warnings := log_warnings s;
                scores := scores |}
  end.

End Validator.

(** ** Stand-ins for the external functions

    Used only to run the definitions on concrete inputs. *)

(** A contrast function that reads the OKLCH lightness as the relative
    luminance: [(lighter + 0.05) / (darker + 0.05)]. *)
Definition lightness_chroma : ChromaJs :=
  {| chroma_color := Qc;
     chroma_oklch := fun l _ _ => l;
     chroma_contrast := fun a b =>
       if bool_decide (a < b)
       then (b + num 0.05) / (a + num 0.05)
       else (a + num 0.05) / (b + num 0.05) |}.

(** A contrast function that reports no contrast at all. *)
Definition flat_chroma : ChromaJs :=
  {| chroma_color := unit;
     chroma_oklch := fun _ _ _ => tt;
     chroma_contrast := fun _ _ => num 1 |}.

Definition plain_format : NumberFormat :=
  {| toFixed := fun _ _ => "n"%string;
     number_to_string := fun _ => "n"%string |}.

Definition black : OKLCHColor := {| l := num 0; c := num 0; h := num 0 |}.
Definition paper : OKLCHColor := {| l := num 0.98; c := num 0.01; h := num 220 |}.
Definition ink : OKLCHColor := {| l := num 0.18; c := num 0.02; h := num 220 |}.
Definition dim : OKLCHColor := {| l := num 0.06; c := num 0.02; h := num 220 |}.

(** A document that passes every rule; its palette states no text color,
    so that no contrast is computed. *)
Definition sample_meta : Meta :=
  {| projectName := Some "Atelier"%string;
     version := Some "1.0.0"%string;
     personality := Some ["brutalist"; "warm"]%string;
     antiPatterns := Some ["centered-hero"%string]%list |}.

Definition sample_color : ColorTokens :=
  {| model := Some "oklch"%string;
     palette := Some {[ "background"%string := paper ]};
     contrastRatios := Some {| textOnBackground := Some (num 12.5);
                               accentOnBackground := None |} |}.

Definition sample_families : Families :=
  {| heading := Some ["Fraunces"; "serif"]%string;
     body := Some ["Satoshi"; "sans-serif"]%string;
     mono := None |}.

Definition sample_typography : Typography :=
  {| scale := Some {| scale_base := Some (num 16); ratio := Some (num 1.25);
                      ratioName := None |};
     families := Some sample_families |}.

Definition sample_motion : Motion :=
  {| springs := Some {[ "gentle"%string :=
                          {| stiffness := num 120; damping := num 14; mass := num 1 |} ]};
     defaultSpring := Some "gentle"%string;
     reducedMotion := Some "respectSystem"%string |}.

Definition sample_geometry : Geometry :=
  {| borderRadius := Some (<[ "card"%string := "12px"%string ]>
                             {[ "button"%string := "4px"%string ]});
     spacing := Some {| spacing_base := Some (num 8); spacing_scale := None |} |}.

Definition sample_generative : Generative :=
  {| noise := Some {| seed := Some "atelier-2024"%string;
                      layoutJitter := Some {| maxOffset := Some (num 4);
                                              rotationRange := Some [num (-2); num 2] |};
                      colorVariation := None |} |}.

Definition sample_primitives : Primitives :=
  {| color := Some sample_color;
     typography := Some sample_typography;
     motion := Some sample_motion;
     geometry := Some sample_geometry |}.

Definition sample_dna : DesignDNA :=
  {| meta := Some sample_meta;
     primitives := Some sample_primitives;
     generative := Some sample_generative |}.

(** Replacing one part of a document. *)
Definition with_meta (m : Meta) (dna : DesignDNA) : DesignDNA :=
  {| meta := Some m; primitives := primitives dna; generative := generative dna |}.

Definition with_primitives (p : Primitives) (dna : DesignDNA) : DesignDNA :=
  {| meta := meta dna; primitives := Some p; generative := generative dna |}.

Definition with_color (k : ColorTokens) (p : Primitives) : Primitives :=
  {| color := Some k; typography := typography p; motion := motion p; geometry := geometry p |}.

Definition with_typography (t : Typography) (p : Primitives) : Primitives :=
  {| color := color p; typography := Some t; motion := motion p; geometry := geometry p |}.

Definition with_geometry (g : Geometry) (p : Primitives) : Primitives :=
  {| color := color p; typography := typography p; motion := motion p; geometry := Some g |}.

(** The sample with a generic personality keyword. *)
Definition generic_dna : DesignDNA :=
  with_meta {| projectName := Some "Atelier"%string;
               version := Some "1.0.0"%string;
               personality := Some ["Modern"; "warm"]%string;
               antiPatterns := Some ["centered-hero"%string]%list |} sample_dna.

(** The sample with [Inter] as its body font. *)
Definition inter_body_dna : DesignDNA :=
  with_primitives
    (with_typography
       {| scale := scale sample_typography;
          families := Some {| heading := Some ["Fraunces"; "serif"]%string;
                              body := Some ["Inter"; "sans-serif"]%string;
                              mono := None |} |}
       sample_primitives)
    sample_dna.

(** The sample with [Inter] as its heading font. *)
Definition inter_heading_dna : DesignDNA :=
  with_primitives
    (with_typography
       {| scale := scale sample_typography;
          families := Some {| heading := Some ["Inter"; "sans-serif"]%string;
                              body := Some ["Satoshi"; "sans-serif"]%string;
                              mono := None |} |}
       sample_primitives)
    sample_dna.

(** The sample with the color model [hex] and a dark text on its light
    background. *)
Definition hex_dna : DesignDNA :=
  with_primitives
    (with_color
       {| model := Some "hex"%string;
          palette := Some (<[ "text"%string := {| l := num 0.08; c := num 0.02; h := num 220 |} ]>
                             {[ "background"%string := paper ]});
          contrastRatios := contrastRatios sample_color |}
       sample_primitives)
    sample_dna.

(** The sample without [meta.personality], without
    [typography.families.heading] and without [geometry.borderRadius]. *)
Definition no_personality_dna : DesignDNA :=
  with_meta {| projectName := projectName sample_meta;
               version := version sample_meta;
               personality := None;
               antiPatterns := antiPatterns sample_meta |} sample_dna.

Definition no_heading_dna : DesignDNA :=
  with_primitives
    (with_typography
       {| scale := scale sample_typography;
          families := Some {| heading := None;
                              body := body sample_families;
                              mono := None |} |}
       sample_primitives)
    sample_dna.

Definition no_borderRadius_dna : DesignDNA :=
  with_primitives
    (with_geometry {| borderRadius := None; spacing := spacing sample_geometry |}
       sample_primitives)
    sample_dna.

(** ** Reading a document

    The values the rules look at, [None] when a property on the path is
    absent. *)

Definition model_of (dna : DesignDNA) : option string :=
  (primitives dna ≫= color) ≫= model.

Definition palette_color (key : string) (dna : DesignDNA) : option OKLCHColor :=
  ((primitives dna ≫= color) ≫= palette) ≫= (fun pal => pal !! key).

(** [heading[0]?.toLowerCase()] and [body[0]?.toLowerCase()] *)
Definition headingFont_of (dna : DesignDNA) : option string :=
  toLowerCase <$> ((((primitives dna ≫= typography) ≫= families) ≫= heading) ≫= head).

Definition bodyFont_of (dna : DesignDNA) : option string :=
  toLowerCase <$> ((((primitives dna ≫= typography) ≫= families) ≫= body) ≫= head).

Definition ratio_of (dna : DesignDNA) : option Qc :=
  ((primitives dna ≫= typography) ≫= scale) ≫= ratio.

(** ** The objects the validator dereferences

    [reads_ok dna] holds when every object whose property the validator
    reads is present. *)

Definition present {A} (o : option A) : bool :=
  match o with
  | Some _ => true
  | None => false
  end.

Definition color_reads_ok (dna : DesignDNA) : bool :=
  match primitives dna ≫= color with
  | Some color =>
      match palette color with
      | Some pal =>
          match pal !! "text"%string, pal !! "background"%string with
          | Some _, Some _ => present (contrastRatios color)
          | _, _ => true
          end
      | None => false
      end
  | None => false
  end.

Definition typography_reads_ok (dna : DesignDNA) : bool :=
  match primitives dna ≫= typography with
  | Some typography =>
      match families typography with
      | Some families =>
          present (heading families) && present (body families)
          && present (scale typography)
      | None => false
      end
  | None => false
  end.

Definition motion_reads_ok (dna : DesignDNA) : bool :=
  present (primitives dna ≫= motion).

Definition geometry_reads_ok (dna : DesignDNA) : bool :=
  present ((primitives dna ≫= geometry) ≫= borderRadius).

Definition uniqueness_reads_ok (dna : DesignDNA) : bool :=
  match meta dna with
  | Some meta => present (personality meta) && present (antiPatterns meta)
  | None => false
  end.

Definition reads_ok (dna : DesignDNA) : bool :=
  color_reads_ok dna && typography_reads_ok dna && motion_reads_ok dna
  && geometry_reads_ok dna && uniqueness_reads_ok dna.

(** A document that has the dereferenced objects and nothing else. *)
Definition bare_dna : DesignDNA :=
  {| meta := Some {| projectName := None; version := None;
                     personality := Some []; antiPatterns := Some [] |};
     primitives :=
       Some {| color := Some {| model := None; palette := Some ∅; contrastRatios := None |};
               typography :=
                 Some {| scale := Some {| scale_base := None; ratio := None;
                                          ratioName := None |};
                         families := Some {| heading := Some []; body := Some [];
                                             mono := None |} |};
               motion := Some {| springs := None; defaultSpring := None;
                                 reducedMotion := None |};
               geometry := Some {| borderRadius := Some ∅; spacing := None |} |};
     generative := None |}.

(** ** The reports expected for the samples *)

Definition four_everywhere : Scores :=
  {| colorSystem := 4; typographySystem := 4; motionSystem := 4;
     geometricSystem := 4; uniqueness := 4; technicalValidity := 4 |}.

Definition clean_report : ValidationResult :=
  {| valid := true; errors := []; warnings := []; scores := four_everywhere |}.

Definition generic_report : ValidationResult :=
  {| valid := false;
     errors := [];
     warnings := ["Generic personality words detected: Modern"%string];
     scores := {| colorSystem := 4; typographySystem := 4; motionSystem := 4;
                  geometricSystem := 4; uniqueness := 2; technicalValidity := 4 |} |}.

Definition inter_heading_report : ValidationResult :=
  {| valid := false;
     errors := [heading_font_message (Some "inter"%string)];
     warnings := [];
     scores := {| colorSystem := 4; typographySystem := 1; motionSystem := 4;
                  geometricSystem := 4; uniqueness := 4; technicalValidity := 2 |} |}.

Definition hex_report : ValidationResult :=
  {| valid := false;
     errors := [color_model_message];
     warnings := ["Stated contrast (n) differs from calculated (n)"%string];
     scores := {| colorSystem := 4; typographySystem := 4; motionSystem := 4;
                  geometricSystem := 4; uniqueness := 4; technicalValidity := 2 |} |}.

(** A message other than the body-font error for [inter]. *)
Definition other_message (m : string) : Prop :=
  m <> body_font_message (Some "inter"%string).

(** ** Facts about rounding, [%] and [normalizeHue] *)

Lemma round_half_even_comp (x y : Q) : (x == y)%Q -> round_half_even x = round_half_even y.
Proof.
  intros E. unfold round_half_even. rewrite (Qfloor_comp _ _ E).
  assert (Ec : (x - inject_Z (Qfloor y) ?= 1 # 2)%Q = (y - inject_Z (Qfloor y) ?= 1 # 2)%Q)
    by (rewrite E; reflexivity).
  rewrite Ec. reflexivity.
Qed.

Lemma round_half_even_Z (m : Z) : round_half_even (inject_Z m) = m.
Proof.
  unfold round_half_even. rewrite Qfloor_Z.
  assert (Hlt : (inject_Z m - inject_Z m < 1 # 2)%Q) by lra.
  rewrite (proj1 (Qlt_alt _ _) Hlt). reflexivity.
Qed.

Lemma round_half_even_nonneg (x : Q) : (0 <= x)%Q -> (0 <= round_half_even x)%Z.
Proof.
  intros Hx. unfold round_half_even.
  pose proof (Qfloor_resp_le _ _ Hx) as Hf. change (Qfloor 0) with 0%Z in Hf.
  destruct (x - inject_Z (Qfloor x) ?= 1 # 2)%Q; [destruct (Z.even (Qfloor x))|..]; lia.
Qed.

Lemma Qpow2_pos (e : Z) : (0 < 2 ^ e)%Q.
Proof. apply Qpower_0_lt. reflexivity. Qed.

(** Rounding keeps the sign. *)
Lemma f64_nonneg (q : Qc) : num 0 <= q -> num 0 <= f64 q.
Proof.
  intros Hq. unfold f64. destruct (Qeq_bool q 0); [exact Hq|].
  cbv zeta. set (e := (ilog2 q - 52)%Z).
  pose proof (Qpow2_pos e) as He.
  assert (Hx : (0 <= q / 2 ^ e)%Q).
  { qc2q. apply Qle_shift_div_l; [exact He|]. lra. }
  apply round_half_even_nonneg in Hx.
  qc2q. apply Qmult_le_0_compat; [|lra].
  rewrite Zle_Qle in Hx. exact Hx.
Qed.

Lemma ilog2_Z (n : Z) : n <> 0%Z -> ilog2 (inject_Z n) = Z.log2 (Z.abs n).
Proof.
  intros Hn. unfold ilog2, inject_Z. cbn [Qnum Qden].
  change (Z.log2 1) with 0%Z. rewrite Z.sub_0_r.
  assert (Hle : Qle_bool (2 ^ Z.log2 (Z.abs n)) (Qabs (n # 1)) = true).
  { apply Qle_bool_iff.
    change (Qabs (n # 1)) with (inject_Z (Z.abs n)).
    change 2%Q with (inject_Z 2).
    rewrite <- Zpower_Qpower by apply Z.log2_nonneg.
    rewrite <- Zle_Qle. apply Z.log2_spec. lia. }
  rewrite Hle. reflexivity.
Qed.

(** An integer below 2^53 in absolute value is a double. *)
Lemma f64_Z (n : Z) : (Z.abs n < 2 ^ 53)%Z -> f64 (Qc_of_Z n) = Qc_of_Z n.
Proof.
  intros Hn. unfold f64.
  destruct (Qeq_bool (Qc_of_Z n) 0) eqn:E0; [reflexivity|].
  assert (Hn0 : n <> 0%Z).
  { intros ->. discriminate E0. }
  cbv zeta. change (this (Qc_of_Z n)) with (inject_Z n).
  rewrite (ilog2_Z n Hn0).
  set (k := Z.log2 (Z.abs n)).
  assert (Hk : (0 <= k < 53)%Z).
  { split; [apply Z.log2_nonneg|]. apply Z.log2_lt_pow2; lia. }
  assert (Hp : (inject_Z n / 2 ^ (k - 52) == inject_Z (n * 2 ^ (52 - k)))%Q).
  { rewrite inject_Z_mult, Zpower_Qpower by lia.
    replace (k - 52)%Z with (- (52 - k))%Z by lia.
    rewrite Qpower_opp. change (inject_Z 2) with 2%Q.
    pose proof (Qpow2_pos (52 - k)). field. lra. }
  apply Qc_is_canon. cbn [this Q2Qc]. rewrite Qred_correct.
  change (this (Qc_of_Z n)) with (inject_Z n).
  rewrite (round_half_even_comp _ _ Hp), round_half_even_Z.
  rewrite inject_Z_mult, Zpower_Qpower by lia.
  replace (k - 52)%Z with (- (52 - k))%Z by lia.
  rewrite Qpower_opp. change (inject_Z 2) with 2%Q.
  pose proof (Qpow2_pos (52 - k)). field. lra.
Qed.
(** ** Facts about [%] and [normalizeHue] *)

Lemma Qtrunc_nonneg (q : Q) :
  (0 <= q)%Q -> (inject_Z (Qtrunc q) <= q /\ q < inject_Z (Qtrunc q) + 1)%Q.
Proof.
  intros Hq.
  assert (Hfl : Qtrunc q = Qfloor q).
  { destruct q as [n d]. unfold Qtrunc, Qfloor. cbn [Qnum Qden].
    apply Z.quot_div_nonneg; [|lia].
    unfold Qle in Hq. cbn in Hq. lia. }
  rewrite Hfl. split; [apply Qfloor_le|].
  pose proof (Qlt_floor q) as Hlt. rewrite inject_Z_plus in Hlt. exact Hlt.
Qed.

Lemma Qtrunc_opp (q : Q) : Qtrunc (- q) = (- Qtrunc q)%Z.
Proof.
  destruct q as [n d]. unfold Qtrunc, Qopp. cbn [Qnum Qden].
  apply Z.quot_opp_l. lia.
Qed.

Lemma Qtrunc_nonpos (q : Q) :
  (q <= 0)%Q -> (q <= inject_Z (Qtrunc q) /\ inject_Z (Qtrunc q) - 1 < q)%Q.
Proof.
  intros Hq.
  assert (Hq' : (0 <= - q)%Q) by lra.
  destruct (Qtrunc_nonneg _ Hq') as [H1 H2].
  rewrite Qtrunc_opp, inject_Z_opp in H1, H2. split; lra.
Qed.

Lemma this_div (a b : Qc) : (this (a / b) == this a / this b)%Q.
Proof.
  unfold Qcdiv, Qcmult, Qcinv, Q2Qc. cbn [this]. rewrite !Qred_correct. reflexivity.
Qed.

Lemma this_js_rem (a b : Qc) :
  (this (js_rem a b) == this a - this b * inject_Z (Qtrunc (this (a / b))))%Q.
Proof.
  unfold js_rem, Qc_of_Z. qc2q. reflexivity.
Qed.

(** [a % 360] differs from [a] by a multiple of 360, has the sign of [a]
    and is smaller than 360 in absolute value. *)
Lemma js_rem_360 (a : Qc) :
  exists k : Z,
    (this (js_rem a (num 360)) == this a - 360 * inject_Z k)%Q
    /\ ((0 <= this a)%Q ->
        (0 <= this (js_rem a (num 360)) /\ this (js_rem a (num 360)) < 360)%Q)
    /\ ((this a <= 0)%Q ->
        (- (360) < this (js_rem a (num 360)) /\ this (js_rem a (num 360)) <= 0)%Q).
Proof.
  exists (Qtrunc (this (a / num 360))).
  pose proof (this_js_rem a (num 360)) as Hr.
  pose proof (this_div a (num 360)) as Hd.
  assert (H360 : (this (num 360) == 360)%Q) by (unfold num; qc2q; reflexivity).
  rewrite H360 in Hr, Hd.
  set (q := this (a / num 360)) in *.
  assert (Hq : (q * 360 == this a)%Q) by (rewrite Hd; field).
  split; [exact Hr|]. split; intros Ha.
  - destruct (Qtrunc_nonneg q) as [H1 H2]; [lra|]. rewrite Hr. split; lra.
  - destruct (Qtrunc_nonpos q) as [H1 H2]; [lra|]. rewrite Hr. split; lra.
Qed.

(** The result of [normalizeHue] lies in [0, 360), whatever the rounding
    of the sum does. *)
Lemma normalizeHue_range (h : Qc) : num 0 <= normalizeHue h /\ normalizeHue h < num 360.
Proof.
  unfold normalizeHue, js_add.
  destruct (js_rem_360 h) as (k1 & _ & Hpos1 & Hneg1).
  set (r1 := js_rem h (num 360)) in *.
  assert (Hr1 : (- (360) < this r1)%Q).
  { destruct (Qlt_le_dec (this h) 0) as [Hh|Hh].
    - apply Hneg1. lra.
    - destruct (Hpos1 Hh). lra. }
  assert (Hs : num 0 <= f64 (r1 + num 360)) by (apply f64_nonneg; qc2q; lra).
  destruct (js_rem_360 (f64 (r1 + num 360))) as (k2 & _ & Hpos2 & _).
  destruct Hpos2 as [H0 H360]; [qc2q; exact Hs|].
  split; qc2q; assumption.
Qed.

(** Two numbers less than 360 apart that differ by a multiple of 360 are
    equal. *)
Lemma residue_unique (x y : Qc) (k : Z) :
  (this x == this y + 360 * inject_Z k)%Q ->
  (- (360) < this x - this y /\ this x - this y < 360)%Q -> x = y.
Proof.
  intros E [Hlo Hhi].
  assert (Hk : k = 0%Z).
  { assert (H1 : (inject_Z (-1) < inject_Z k)%Q) by (change (inject_Z (-1)) with (-1)%Q; lra).
    assert (H2 : (inject_Z k < inject_Z 1)%Q) by (change (inject_Z 1) with 1%Q; lra).
    rewrite <- Zlt_Qlt in H1, H2. lia. }
  subst k. apply Qc_is_canon. rewrite E. change (inject_Z 0) with 0%Q. ring.
Qed.

(** On integers [%] is the remainder of the truncated division. *)
Lemma js_rem_Z (n : Z) : js_rem (Qc_of_Z n) (num 360) = Qc_of_Z (Z.rem n 360).
Proof.
  destruct (js_rem_360 (Qc_of_Z n)) as (k & E & Hpos & Hneg).
  change (this (Qc_of_Z n)) with (inject_Z n) in *.
  apply (residue_unique _ _ (Z.quot n 360 - k)).
  - change (this (Qc_of_Z (Z.rem n 360))) with (inject_Z (Z.rem n 360)).
    rewrite E. pose proof (Z.quot_rem' n 360) as Hn.
    assert (Hq : (inject_Z n == 360 * inject_Z (Z.quot n 360) + inject_Z (Z.rem n 360))%Q).
    { rewrite Hn at 1. rewrite inject_Z_plus, inject_Z_mult. reflexivity. }
    unfold Zminus. rewrite inject_Z_plus, inject_Z_opp, Hq. ring.
  - change (this (Qc_of_Z (Z.rem n 360))) with (inject_Z (Z.rem n 360)).
    destruct (Z_lt_le_dec n 0) as [Hn|Hn].
    + assert (Hr : (-360 < Z.rem n 360 <= 0)%Z)
        by (Z.to_euclidean_division_equations; lia).
      destruct Hr as [Hr1 Hr2]. rewrite Zlt_Qlt in Hr1. rewrite Zle_Qle in Hr2.
      change (inject_Z (-360)) with (-(360))%Q in Hr1. change (inject_Z 0) with 0%Q in Hr2.
      destruct Hneg as [H1 H2]; [rewrite Zlt_Qlt in Hn; change (inject_Z 0) with 0%Q in Hn; lra|].
      split; lra.
    + assert (Hr : (0 <= Z.rem n 360 < 360)%Z)
        by (Z.to_euclidean_division_equations; lia).
      destruct Hr as [Hr1 Hr2]. rewrite Zle_Qle in Hr1. rewrite Zlt_Qlt in Hr2.
      change (inject_Z 360) with 360%Q in Hr2. change (inject_Z 0) with 0%Q in Hr1.
      destruct Hpos as [H1 H2]; [rewrite Zle_Qle in Hn; change (inject_Z 0) with 0%Q in Hn; lra|].
      split; lra.
Qed.

(** The sum of two integers is exact as long as it stays below 2^53. *)
Lemma js_add_Z (a b : Z) :
  (Z.abs (a + b) < 2 ^ 53)%Z -> js_add (Qc_of_Z a) (Qc_of_Z b) = Qc_of_Z (a + b).
Proof.
  intros Hs. unfold js_add. rewrite <- Z2Qc_inj_add. apply f64_Z. exact Hs.
Qed.

Lemma js_sub_Z (a b : Z) :
  (Z.abs (a - b) < 2 ^ 53)%Z -> js_sub (Qc_of_Z a) (Qc_of_Z b) = Qc_of_Z (a - b).
Proof.
  intros Hs. unfold js_sub. rewrite <- Z2Qc_inj_sub. apply f64_Z. exact Hs.
Qed.

Lemma num_Z (n : Z) : num (inject_Z n) = Qc_of_Z n.
Proof. apply Qc_is_canon. unfold num. cbn [this Q2Qc]. apply Qred_correct. Qed.

(** On an integer hue [normalizeHue] is exact: the hue modulo 360. *)
Lemma normalizeHue_Z (n : Z) : normalizeHue (Qc_of_Z n) = Qc_of_Z (n mod 360).
Proof.
  unfold normalizeHue. rewrite js_rem_Z.
  change (num 360) with (num (inject_Z 360)) at 1. rewrite num_Z.
  rewrite js_add_Z by (Z.to_euclidean_division_equations; lia).
  rewrite js_rem_Z. f_equal. Z.to_euclidean_division_equations; lia.
Qed.

(** A whole number of degrees added to or taken from an integer hue of
    [0, 360), then normalised. *)
Lemma normalizeHue_add_Z (n k : Z) :
  (0 <= n < 360)%Z -> (-360 <= k <= 360)%Z ->
  normalizeHue (js_add (Qc_of_Z n) (num (inject_Z k))) = Qc_of_Z ((n + k) mod 360).
Proof.
  intros Hn Hk. rewrite num_Z, js_add_Z by lia. apply normalizeHue_Z.
Qed.

Lemma normalizeHue_sub_Z (n k : Z) :
  (0 <= n < 360)%Z -> (-360 <= k <= 360)%Z ->
  normalizeHue (js_sub (Qc_of_Z n) (num (inject_Z k))) = Qc_of_Z ((n - k) mod 360).
Proof.
  intros Hn Hk. rewrite num_Z, js_sub_Z by lia. apply normalizeHue_Z.
Qed.

Section GeneratorFacts.
Context {chroma : ChromaJs}.

Lemma ensureContrast_loop_eq bg minRatio adjusted :
  ensureContrast_loop bg minRatio adjusted =
  if loop_test bg minRatio adjusted
  then ensureContrast_loop bg minRatio (loop_body bg adjusted)
  else adjusted.
Proof.
  funelim (ensureContrast_loop bg minRatio adjusted).
  - rewrite Ht. reflexivity.
  - rewrite e. reflexivity.
Qed.

Lemma steps_left_le_45 bg adjusted : (steps_left bg adjusted <= 45)%nat.
Proof.
  unfold steps_left.
  destruct (bool_decide (num 0.05 < l adjusted)) eqn:Hlo; [|cbn; lia].
  destruct (bool_decide (l adjusted < num 0.95)) eqn:Hhi; [|cbn; lia].
  cbn [andb]. apply bool_decide_eq_true in Hlo, Hhi.
  pose proof (headroom_lt_45 bg _ Hlo Hhi) as H45.
  pose proof (headroom_pos bg _ Hlo Hhi) as H0.
  set (y := this (headroom bg adjusted * num 50)) in *.
  pose proof (Qfloor_le y) as Hfl.
  assert (Hlt : (inject_Z (Qfloor y) < inject_Z 45)%Q) by (change (inject_Z 45) with 45%Q; lra).
  rewrite <- Zlt_Qlt in Hlt. lia.
Qed.

End GeneratorFacts.

Section GeneratorLoop.
Context {chroma : ChromaJs}.

(** The loop leaves chroma and hue alone. *)
Lemma ensureContrast_loop_frame bg minRatio adjusted :
  c (ensureContrast_loop bg minRatio adjusted) = c adjusted
  /\ h (ensureContrast_loop bg minRatio adjusted) = h adjusted.
Proof.
  funelim (ensureContrast_loop bg minRatio adjusted); [|auto].
  destruct H as [Hc Hh]. rewrite Hc, Hh. auto.
Qed.

(** On exit the test of the loop is false. *)
Lemma ensureContrast_loop_exit bg minRatio adjusted :
  loop_test bg minRatio (ensureContrast_loop bg minRatio adjusted) = false.
Proof.
  funelim (ensureContrast_loop bg minRatio adjusted); assumption.
Qed.

(** The loop is a run of [n] iterations, [n] at most the variant. *)
Lemma ensureContrast_loop_iter bg minRatio adjusted :
  exists n : nat,
    (n <= steps_left bg adjusted)%nat
    /\ ensureContrast_loop bg minRatio adjusted = Nat.iter n (loop_body bg) adjusted
    /\ (forall k : nat, (k < n)%nat ->
          loop_test bg minRatio (Nat.iter k (loop_body bg) adjusted) = true)
    /\ loop_test bg minRatio (Nat.iter n (loop_body bg) adjusted) = false.
Proof.
  funelim (ensureContrast_loop bg minRatio adjusted).
  - destruct H as (n & Hn & Heq & Hbefore & Hexit).
    pose proof (steps_left_decreases _ _ _ Ht) as Hdec.
    exists (S n). rewrite !Nat.iter_succ_r. repeat split; [lia|assumption| |assumption].
    intros [|k] Hk; [exact Ht|]. rewrite Nat.iter_succ_r. apply Hbefore. lia.
  - exists O. cbn. repeat split; [lia| |assumption]. intros k Hk. lia.
Qed.

(** Enough fuel gives the result of the loop. *)
Lemma ensureContrast_fuel_enough fuel bg minRatio adjusted :
  (steps_left bg adjusted < fuel)%nat ->
  ensureContrast_fuel fuel bg minRatio adjusted
  = Some (ensureContrast_loop bg minRatio adjusted).
Proof.
  revert adjusted. induction fuel as [|fuel IH]; intros adjusted Hlt; [lia|].
  cbn [ensureContrast_fuel]. rewrite (ensureContrast_loop_eq bg minRatio adjusted).
  destruct (loop_test bg minRatio adjusted) eqn:Ht; [|reflexivity].
  apply IH. pose proof (steps_left_decreases _ _ _ Ht). lia.
Qed.

Lemma ensureContrast_fuel_46 fg bg minRatio :
  ensureContrast_fuel 46 bg minRatio fg = Some (ensureContrast fg bg minRatio).
Proof.
  apply ensureContrast_fuel_enough. pose proof (steps_left_le_45 bg fg). lia.
Qed.

(** A lightness within one step of the interval stays there. *)
Lemma ensureContrast_loop_within bg minRatio adjusted :
  num 0.03 < l adjusted -> l adjusted < num 0.97 ->
  num 0.03 < l (ensureContrast_loop bg minRatio adjusted)
  /\ l (ensureContrast_loop bg minRatio adjusted) < num 0.97.
Proof.
  funelim (ensureContrast_loop bg minRatio adjusted); [|auto].
  intros _ _. destruct (loop_test_in_range _ _ _ Ht) as [Hlo Hhi].
  apply H; unfold loop_body, direction; cbn [l];
    destruct (bool_decide (num 0.5 < l bg)); qc2q; lra.
Qed.

(** A lightness outside the open interval is not touched. *)
Lemma ensureContrast_outside fg bg minRatio :
  l fg <= num 0.05 \/ num 0.95 <= l fg -> ensureContrast fg bg minRatio = fg.
Proof.
  intros Hout. unfold ensureContrast. rewrite ensureContrast_loop_eq.
  destruct (loop_test bg minRatio fg) eqn:Ht; [|reflexivity].
  destruct (loop_test_in_range _ _ _ Ht) as [Hlo Hhi].
  destruct Hout as [Hout|Hout]; qc2q; lra.
Qed.

End GeneratorLoop.

(** ** Properties of the palette generator *)

Section GeneratorProperties.
Context {chroma : ChromaJs}.

(** C2.  The text of every generated palette is the result of the repair
    pass on the text and background first built (the pass is never
    skipped), and it either reaches the ratio 7.0 against the background
    or has a lightness that left the open interval (0.05, 0.95). *)
Theorem generatePalette_contrast_floor (baseHue : Qc) (mode : HarmonyMode) (isDark : bool) :
  let p := generatePalette baseHue mode isDark in
  let p0 := initial_palette (normalizeHue baseHue) mode isDark in
  text p = ensureContrast (text p0) (background p0) (num 7.0)
  /\ background p = background p0
  /\ (num 7.0 <= getContrastRatio (text p) (background p)
      \/ l (text p) <= num 0.05
      \/ num 0.95 <= l (text p)).
Proof.
  cbv zeta. unfold generatePalette. cbn [text background set_text set_primary].
  split; [reflexivity|]. split; [reflexivity|].
  set (p0 := initial_palette (normalizeHue baseHue) mode isDark).
  pose proof (ensureContrast_loop_exit (background p0) (num 7.0) (text p0)) as Hexit.
  fold (ensureContrast (text p0) (background p0) (num 7.0)) in Hexit.
  unfold loop_test in Hexit.
  apply andb_false_iff in Hexit as [Hexit|Hexit];
    [apply andb_false_iff in Hexit as [Hexit|Hexit]|];
    apply bool_decide_eq_false in Hexit; apply Qcnot_lt_le in Hexit; auto.
Qed.

(** C5 (as amended).  The repair step raises no error and does not clamp:
    a foreground whose lightness is outside the open interval (0.05, 0.95)
    is returned as it is, and for a lightness inside it the returned
    lightness lies strictly between 0.03 and 0.97, less than one step of
    0.02 beyond the interval. *)
Theorem ensureContrast_lightness (fg bg : OKLCHColor) (minRatio : Qc) :
  (l fg <= num 0.05 \/ num 0.95 <= l fg -> ensureContrast fg bg minRatio = fg)
  /\ (num 0.05 < l fg -> l fg < num 0.95 ->
      num 0.03 < l (ensureContrast fg bg minRatio)
      /\ l (ensureContrast fg bg minRatio) < num 0.97).
Proof.
  split; [apply ensureContrast_outside|].
  intros Hlo Hhi. apply ensureContrast_loop_within; qc2q; lra.
Qed.

(** C6.  For a foreground lightness in (0.05, 0.95) the loop of
    [ensureContrast] stops after [n] iterations with [n <= 45]: its
    result is the [n]-th iterate of the loop body, the test holds before
    each of the [n] iterations and fails after the last. *)
Theorem ensureContrast_terminates (fg bg : OKLCHColor) (minRatio : Qc) :
  num 0.05 < l fg -> l fg < num 0.95 ->
  exists n : nat,
    (n <= 45)%nat
    /\ ensureContrast fg bg minRatio = Nat.iter n (loop_body bg) fg
    /\ (forall k : nat, (k < n)%nat ->
          loop_test bg minRatio (Nat.iter k (loop_body bg) fg) = true)
    /\ loop_test bg minRatio (Nat.iter n (loop_body bg) fg) = false.
Proof.
  intros _ _.
  destruct (ensureContrast_loop_iter bg minRatio fg) as (n & Hn & Hrest).
  exists n. split; [|exact Hrest].
  pose proof (steps_left_le_45 bg fg). lia.
Qed.

(** The hue of the background is the normalised base hue. *)
Lemma generatePalette_background_hue (baseHue : Qc) (mode : HarmonyMode) (isDark : bool) :
  h (background (generatePalette baseHue mode isDark)) = normalizeHue baseHue.
Proof. destruct mode; reflexivity. Qed.

(** C8 (as amended).  An integer base hue and the same hue plus a full
    turn give the same palette: the sum [hue + 360], which the caller
    computes on doubles, is exact below 2^53, and so is every hue
    computed from an integer. *)
Theorem generatePalette_hue_plus_360 (hue : Z) (mode : HarmonyMode) (isDark : bool) :
  (Z.abs hue <= 9007199254740000)%Z ->
  generatePalette (js_add (Qc_of_Z hue) (num 360)) mode isDark
  = generatePalette (Qc_of_Z hue) mode isDark.
Proof.
  intros Hb. change (num 360) with (num (inject_Z 360)).
  rewrite num_Z, js_add_Z by lia.
  unfold generatePalette. rewrite !normalizeHue_Z.
  replace ((hue + 360) mod 360)%Z with (hue mod 360)%Z; [reflexivity|].
  Z.to_euclidean_division_equations; lia.
Qed.


(** C10.  The repair step changes the lightness only: chroma and hue of
    its result are those of the foreground.  Hence in every generated
    palette background, secondary, accent, muted and border, and the
    chroma and hue of text and primary, are as first built. *)
Theorem ensureContrast_frame :
  (forall (fg bg : OKLCHColor) (minRatio : Qc),
      c (ensureContrast fg bg minRatio) = c fg
      /\ h (ensureContrast fg bg minRatio) = h fg)
  /\ (forall (baseHue : Qc) (mode : HarmonyMode) (isDark : bool),
        let p := generatePalette baseHue mode isDark in
        let p0 := initial_palette (normalizeHue baseHue) mode isDark in
        background p = background p0
        /\ secondary p = secondary p0
        /\ accent p = accent p0
        /\ muted p = muted p0
        /\ border p = border p0
        /\ c (text p) = c (text p0) /\ h (text p) = h (text p0)
        /\ c (primary p) = c (primary p0) /\ h (primary p) = h (primary p0)).
Proof.
  split.
  - intros fg bg minRatio. apply ensureContrast_loop_frame.
  - intros baseHue mode isDark. cbv zeta. unfold generatePalette, ensureContrast.
    cbn [text primary background secondary accent muted border set_text set_primary].
    repeat split; try reflexivity; apply ensureContrast_loop_frame.
Qed.

End GeneratorProperties.

(** C8 (as amended) on the default hue of the command line. *)
Lemma generatePalette_hue_plus_360_witness :
  (Z.abs 220 <= 9007199254740000)%Z
  /\ @generatePalette lightness_chroma (js_add (Qc_of_Z 220) (num 360)) split_complementary false
     = @generatePalette lightness_chroma (Qc_of_Z 220) split_complementary false.
Proof.
  assert (H : (Z.abs 220 <= 9007199254740000)%Z) by (vm_compute; discriminate).
  split; [exact H|].
  exact (@generatePalette_hue_plus_360 lightness_chroma 220 split_complementary false H).
Defined.

(** C8, counterexample.  For the double written [-71.96] the normalised
    hue is the double written [288.04], but for that hue plus 360 it is
    the double written [288.03999999999996]: the sum
    [288.04 + 360] inside [normalizeHue] is rounded.  The two palettes
    differ in the hue of the background, whatever the mode, the theme and
    the contrast function. *)
Lemma generatePalette_hue_plus_360_fails :
  normalizeHue (f64 (num (-71.96))) = f64 (num 288.04)
  /\ normalizeHue (js_add (f64 (num (-71.96))) (num 360)) = f64 (num 288.03999999999996)
  /\ f64 (num 288.03999999999996) < f64 (num 288.04)
  /\ (forall (chroma : ChromaJs) (mode : HarmonyMode) (isDark : bool),
        generatePalette (js_add (f64 (num (-71.96))) (num 360)) mode isDark
        <> generatePalette (f64 (num (-71.96))) mode isDark).
Proof.
  assert (H1 : normalizeHue (f64 (num (-71.96))) = f64 (num 288.04))
    by (apply Qc_is_canon; vm_compute; reflexivity).
  assert (H2 : normalizeHue (js_add (f64 (num (-71.96))) (num 360))
               = f64 (num 288.03999999999996))
    by (apply Qc_is_canon; vm_compute; reflexivity).
  assert (H3 : f64 (num 288.03999999999996) < f64 (num 288.04))
    by (vm_compute; reflexivity).
  split; [exact H1|]. split; [exact H2|]. split; [exact H3|].
  intros chroma mode isDark E.
  apply (f_equal (fun p => h (background p))) in E.
  rewrite !generatePalette_background_hue, H1, H2 in E.
  exact (Qclt_not_eq _ _ H3 E).
Defined.

(** The order of normalising and adding matters on doubles: for the
    double written [250.3] the triadic hue of text,
    [normalizeHue (normalizeHue 250.3 + 120)], is the double written
    [10.299999999999955], while [normalizeHue (250.3 + 120)] is the
    double written [10.300000000000011]. *)
Example triadic_hue_of_250_3 :
  h (text (@generatePalette lightness_chroma (f64 (num 250.3)) triadic false))
  = f64 (num 10.299999999999955)
  /\ normalizeHue (js_add (f64 (num 250.3)) (num 120)) = f64 (num 10.300000000000011).
Proof.
  split; [|apply Qc_is_canon; vm_compute; reflexivity].
  unfold generatePalette, ensureContrast. cbn [text set_text set_primary].
  rewrite (proj2 (ensureContrast_loop_frame _ _ _)). cbn [initial_palette text h].
  apply Qc_is_canon. vm_compute. reflexivity.
Qed.

(** The hypotheses of C6 hold for the text of the light theme. *)
Lemma ensureContrast_terminates_witness :
  num 0.05 < l ink /\ l ink < num 0.95
  /\ exists n : nat,
       (n <= 45)%nat
       /\ @ensureContrast lightness_chroma ink paper (num 7.0)
          = Nat.iter n (loop_body paper) ink
       /\ (forall k : nat, (k < n)%nat ->
             @loop_test lightness_chroma paper (num 7.0)
               (Nat.iter k (loop_body paper) ink) = true)
       /\ @loop_test lightness_chroma paper (num 7.0)
            (Nat.iter n (loop_body paper) ink) = false.
Proof.
  split; [vm_compute; reflexivity|]. split; [vm_compute; reflexivity|].
  apply (@ensureContrast_terminates lightness_chroma ink paper (num 7.0));
    vm_compute; reflexivity.
Defined.

(** The second part of C5 applies to a foreground one step above the
    lower bound. *)
Lemma ensureContrast_lightness_witness :
  num 0.05 < l dim /\ l dim < num 0.95
  /\ num 0.03 < l (@ensureContrast flat_chroma dim paper (num 7.0))
  /\ l (@ensureContrast flat_chroma dim paper (num 7.0)) < num 0.97.
Proof.
  split; [vm_compute; reflexivity|]. split; [vm_compute; reflexivity|].
  apply (proj2 (@ensureContrast_lightness flat_chroma dim paper (num 7.0)));
    vm_compute; reflexivity.
Defined.

(** Evaluation of the repair step through the fuelled loop. *)
Lemma ensureContrast_eval {chroma : ChromaJs} (fg bg : OKLCHColor) (minRatio : Qc)
    (r : OKLCHColor) :
  ensureContrast_fuel 46 bg minRatio fg = Some r -> ensureContrast fg bg minRatio = r.
Proof.
  rewrite ensureContrast_fuel_46. intros [= ->]. reflexivity.
Qed.

(** With a target that no pair of colors reaches (a WCAG ratio is at most
    21), the repair of a foreground at lightness 0.06 on a light
    background ends at lightness 0.04. *)
Lemma ensureContrast_overshoots {chroma : ChromaJs} :
  (forall a b, chroma_contrast a b <= num 21) ->
  l (ensureContrast dim paper (num 22)) = num 0.04.
Proof.
  intros Hmax. unfold ensureContrast.
  assert (Ht : forall a, bool_decide (getContrastRatio a paper < num 22) = true).
  { intros a. apply bool_decide_eq_true_2. unfold getContrastRatio.
    eapply Qcle_lt_trans; [apply Hmax|]. vm_compute. reflexivity. }
  assert (H1 : loop_test paper (num 22) dim = true).
  { unfold loop_test. rewrite Ht. vm_compute. reflexivity. }
  assert (H2 : loop_test paper (num 22) (loop_body paper dim) = false).
  { unfold loop_test. rewrite Ht. vm_compute. reflexivity. }
  rewrite ensureContrast_loop_eq, H1, ensureContrast_loop_eq, H2.
  apply Qc_is_canon. vm_compute. reflexivity.
Qed.

(** C5, counterexample.  Black is returned as it is, with lightness 0
    below 0.05, whatever the contrast function; and a foreground at
    lightness 0.06 that cannot reach the target on a light background is
    returned at lightness 0.04, not at the boundary 0.05. *)
Lemma ensureContrast_not_clamped :
  (forall chroma : ChromaJs, l (@ensureContrast chroma black paper (num 7.0)) = num 0)
  /\ num 0 < num 0.05
  /\ l (@ensureContrast flat_chroma dim paper (num 7.0)) = num 0.04
  /\ num 0.04 < num 0.05.
Proof.
  split.
  - intros chroma. rewrite ensureContrast_outside; [reflexivity|].
    left. vm_compute. discriminate.
  - split; [vm_compute; reflexivity|]. split; [|vm_compute; reflexivity].
    rewrite (ensureContrast_eval dim paper (num 7.0)
               {| l := num 0.06 + num (-1) * num 0.02;
                  c := num 0.02; h := num 220 |}).
    + apply Qc_is_canon. vm_compute. reflexivity.
    + vm_compute. reflexivity.
Defined.

(** The bound of C6 is attained: from lightness 0.94 on a light
    background, with a target that is never met, 45 iterations do not
    finish the loop, which ends at lightness 0.04. *)
Example ensureContrast_45_iterations :
  let fg := {| l := num 0.94; c := num 0.02; h := num 220 |} in
  @ensureContrast_fuel flat_chroma 45 paper (num 7.0) fg = None
  /\ l (@ensureContrast flat_chroma fg paper (num 7.0)) = num 0.04.
Proof.
  cbv zeta. split; [vm_compute; reflexivity|].
  apply Qc_is_canon. vm_compute. reflexivity.
Qed.

(** ** Reasoning about computations in [M] *)

Local Close Scope Qc_scope.
Local Open Scope Z_scope.

Lemma bind_inv {A B} (m : M A) (k : A -> M B) s b s' :
  bind m k s = Return (b, s') ->
  exists a s1, m s = Return (a, s1) /\ k a s1 = Return (b, s').
Proof.
  unfold bind. destruct (m s) as [[a s1]|e]; [|discriminate]. eauto.
Qed.

Lemma ret_inv {A} (a b : A) s s' : ret a s = Return (b, s') -> b = a /\ s' = s.
Proof. unfold ret. intros [= -> ->]. auto. Qed.

Lemma prop_of_inv {A} name (o : option A) s a s' :
  prop_of name o s = Return (a, s') -> o = Some a /\ s' = s.
Proof.
  destruct o as [x|]; cbn; [|discriminate]. intros [= -> ->]. auto.
Qed.

Lemma push_error_inv msg s u s' :
  push_error msg s = Return (u, s') ->
  log_errors s' = log_errors s ++ [msg] /\ log_warnings s' = log_warnings s ++ [].
Proof. unfold push_error. intros [= _ <-]. cbn. rewrite app_nil_r. auto. Qed.

Lemma push_warning_inv msg s u s' :
  push_warning msg s = Return (u, s') -> log_errors s' = log_errors s.
Proof. unfold push_warning. intros [= _ <-]. reflexivity. Qed.

(** Inversion of a computation that returned, one step at a time. *)
Ltac inv_M_step :=
  match goal with
  | H : bind _ _ _ = Return _ |- _ =>
      apply bind_inv in H; destruct H as (? & ? & ? & H); cbv beta in H
  | H : ret _ _ = Return _ |- _ =>
      apply ret_inv in H; destruct H as [? ?]; subst
  | H : prop_of _ _ _ = Return _ |- _ =>
      apply prop_of_inv in H; destruct H as [? ?]; subst
  | H : when ?b _ _ = Return _ |- _ =>
      destruct b eqn:?; cbn [when] in H
  | H : (if ?b then _ else _) _ = Return _ |- _ =>
      destruct b eqn:?
  | H : match ?x with Some _ => _ | None => _ end _ = Return _ |- _ =>
      destruct x eqn:?
  | H : errors_length _ = Return _ |- _ =>
      unfold errors_length in H; injection H as ? ?; subst
  | H : push_error _ _ = Return _ |- _ =>
      apply push_error_inv in H; destruct H as [H _]
  | H : push_warning _ _ = Return _ |- _ =>
      apply push_warning_inv in H
  end.

Ltac inv_M := repeat inv_M_step.

(** Expressing the final list of errors from the initial one. *)
Ltac chain_logs :=
  repeat match goal with
         | H : log_errors ?a = _ |- context [log_errors ?a] => rewrite H
         end.

Ltac solve_added :=
  chain_logs; eexists;
  split; [first [symmetry; apply app_nil_r | rewrite <- ?app_assoc; reflexivity]|].

(** [pushes_only Q m]: when [m] returns, it has appended to the list of
    errors, and only messages that satisfy [Q]. *)
Definition pushes_only {A} (Q : string -> Prop) (m : M A) : Prop :=
  forall s a s', m s = Return (a, s') ->
    exists added, log_errors s' = log_errors s ++ added /\ Forall Q added.

Lemma pushes_only_ret {A} Q (a : A) : pushes_only Q (ret a).
Proof.
  intros s b s' H. apply ret_inv in H as [_ ->]. exists []. rewrite app_nil_r. auto.
Qed.

Lemma pushes_only_bind {A B} Q (m : M A) (k : A -> M B) :
  pushes_only Q m -> (forall a, pushes_only Q (k a)) -> pushes_only Q (bind m k).
Proof.
  intros Hm Hk s b s' H. apply bind_inv in H as (a & s1 & H1 & H2).
  destruct (Hm _ _ _ H1) as (l1 & E1 & F1). destruct (Hk _ _ _ _ H2) as (l2 & E2 & F2).
  exists (l1 ++ l2). rewrite E2, E1, app_assoc. split; [reflexivity|].
  apply Forall_app; auto.
Qed.

Lemma pushes_only_push_error (Q : string -> Prop) msg : Q msg -> pushes_only Q (push_error msg).
Proof.
  intros HQ s u s' H. apply push_error_inv in H as [E _]. exists [msg]. auto.
Qed.

Lemma pushes_only_push_warning Q msg : pushes_only Q (push_warning msg).
Proof.
  intros s u s' H. apply push_warning_inv in H. exists []. rewrite app_nil_r. auto.
Qed.

Lemma pushes_only_prop_of {A} Q name (o : option A) : pushes_only Q (prop_of name o).
Proof.
  intros s a s' H. apply prop_of_inv in H as [_ ->]. exists []. rewrite app_nil_r. auto.
Qed.

Lemma pushes_only_when Q b m : pushes_only Q m -> pushes_only Q (when b m).
Proof. destruct b; cbn; [auto|]. intros _. apply pushes_only_ret. Qed.

Lemma pushes_only_errors_length Q : pushes_only Q errors_length.
Proof.
  intros s a s' [= _ <-]. exists []. rewrite app_nil_r. auto.
Qed.

Ltac pushes_only_step :=
  first
    [ apply pushes_only_ret
    | apply pushes_only_push_warning
    | apply pushes_only_prop_of
    | apply pushes_only_errors_length
    | apply pushes_only_push_error
    | apply pushes_only_when
    | apply pushes_only_bind; [|intros ?]
    | match goal with
      | |- pushes_only _ (if ?b then _ else _) => destruct b
      | |- pushes_only _ (match ?x with Some _ => _ | None => _ end) => destruct x
      end ].

(** [returns m]: [m] does not throw. *)
Definition returns {A} (m : M A) : Prop := forall s, exists a s', m s = Return (a, s').

Lemma returns_ret {A} (a : A) : returns (ret a).
Proof. intros s. unfold ret. eauto. Qed.

Lemma returns_bind {A B} (m : M A) (k : A -> M B) :
  returns m -> (forall a, returns (k a)) -> returns (bind m k).
Proof.
  intros Hm Hk s. destruct (Hm s) as (a & s1 & E1). destruct (Hk a s1) as (b & s2 & E2).
  exists b, s2. unfold bind. rewrite E1. exact E2.
Qed.

Lemma returns_push_error msg : returns (push_error msg).
Proof. intros s. unfold push_error. eauto. Qed.

Lemma returns_push_warning msg : returns (push_warning msg).
Proof. intros s. unfold push_warning. eauto. Qed.

Lemma returns_when b m : returns m -> returns (when b m).
Proof. destruct b; cbn; [auto|]. intros _. apply returns_ret. Qed.

Lemma returns_errors_length : returns errors_length.
Proof. intros s. unfold errors_length. eauto. Qed.

Lemma returns_prop_of {A} name (a : A) : returns (prop_of name (Some a)).
Proof. cbn. apply returns_ret. Qed.

Lemma bind_prop_of_Some {A B} name (a : A) (k : A -> M B) :
  bind (prop_of name (Some a)) k = k a.
Proof. reflexivity. Qed.

(** Reading the properties that are known to be present. *)
Ltac read_present :=
  repeat first
    [ rewrite bind_prop_of_Some; cbv beta
    | match goal with
      | H : ?f ?x = Some _ |- context [?f ?x] => rewrite H
      end ].

Ltac returns_step :=
  first
    [ rewrite bind_prop_of_Some; cbv beta
    | match goal with
      | H : ?o = Some _ |- context [prop_of _ ?o] => rewrite H
      end
    | apply returns_ret
    | apply returns_push_warning
    | apply returns_push_error
    | apply returns_errors_length
    | apply returns_prop_of
    | apply returns_when
    | apply returns_bind; [|intros ?]
    | match goal with
      | H : ?x = _ |- returns (match ?x with Some _ => _ | None => _ end) => rewrite H
      | |- returns (if ?b then _ else _) => destruct b
      | |- returns (match ?x with Some _ => _ | None => _ end) => destruct x
      end ].

(** ** Facts about the rule groups *)

Ltac other_message_goals :=
  try (unfold other_message, body_font_message, color_model_message, heading_font_message;
       cbn; discriminate).

(** Rewriting the paths into a document with what an inversion found. *)
Ltac use_paths :=
  unfold model_of, palette_color, headingFont_of, bodyFont_of, ratio_of;
  repeat (match goal with
          | H : ?f ?x = Some _ |- context [?f ?x] => rewrite H
          | H : ?f ?x = None |- context [?f ?x] => rewrite H
          end; cbn [mbind option_bind fmap option_fmap option_map]).

Ltac use_tests :=
  repeat match goal with
         | H : ?b = true |- context [?b] => rewrite H
         | H : ?b = false |- context [?b] => rewrite H
         end.

Section ValidatorFacts.
Context {chroma : ChromaJs} {fmt : NumberFormat}.

Lemma validate_color_pushes dna : pushes_only other_message (validate_color dna).
Proof.
  unfold validate_color. cbv zeta. repeat pushes_only_step; other_message_goals.
Qed.

Lemma validate_motion_pushes dna : pushes_only other_message (validate_motion dna).
Proof.
  unfold validate_motion. cbv zeta. repeat pushes_only_step; other_message_goals.
Qed.

Lemma validate_geometry_pushes dna : pushes_only other_message (validate_geometry dna).
Proof.
  unfold validate_geometry. cbv zeta. repeat pushes_only_step; other_message_goals.
Qed.

Lemma validate_uniqueness_pushes dna : pushes_only other_message (validate_uniqueness dna).
Proof.
  unfold validate_uniqueness. cbv zeta. repeat pushes_only_step; other_message_goals.
Qed.

Lemma validate_typography_appends dna : pushes_only (fun _ => True) (validate_typography dna).
Proof.
  unfold validate_typography. cbv zeta. repeat pushes_only_step; exact I.
Qed.

End ValidatorFacts.

Section ValidatorInv.
Context {chroma : ChromaJs} {fmt : NumberFormat}.

(** What the typography rules return for a banned heading font and for
    the body font [inter]. *)
Lemma validate_typography_inv dna s score s' :
  validate_typography dna s = Return (score, s') ->
  (is_banned (headingFont_of dna) = true ->
     score = 1 /\ heading_font_message (headingFont_of dna) ∈ log_errors s')
  /\ (bodyFont_of dna = Some "inter"%string ->
        score = (if is_banned (headingFont_of dna) || falsy_number (ratio_of dna)
                 then 1 else 4)
        /\ exists added, log_errors s' = log_errors s ++ added /\ Forall other_message added).
Proof.
  unfold validate_typography. cbv zeta. intros H.
  inv_M; use_paths.
  all: split; [intros Hban|intros Hbody].
  all: try congruence.
  all: try (split; [reflexivity|chain_logs; set_solver]).
  all: try match goal with
           | H : bool_decide (_ <> _) = true |- _ =>
               rewrite Hbody in H; apply bool_decide_eq_true in H; congruence
           end.
  all: use_tests; cbn [orb].
  all: split; [reflexivity|solve_added; cbn; repeat constructor; other_message_goals].
Qed.

(** What the color rules return: the error for a model other than
    [oklch], and a score that the contrast alone decides when the palette
    has a text and a background color. *)
Lemma validate_color_inv dna s score s' :
  validate_color dna s = Return (score, s') ->
  (model_of dna <> Some "oklch"%string -> color_model_message ∈ log_errors s')
  /\ score =
     match palette_color "text" dna, palette_color "background" dna with
     | Some textColor, Some bgColor =>
         if bool_decide (num 7 <= getContrastRatio textColor bgColor)%Qc then 4
         else if bool_decide (num 4.5 <= getContrastRatio textColor bgColor)%Qc then 3
         else 1
     | _, _ => if bool_decide (model_of dna <> Some "oklch"%string) then 1 else 4
     end.
Proof.
  unfold validate_color. cbv zeta. intros H.
  inv_M; use_paths; use_tests.
  all: split; [intros Hmodel|try reflexivity].
  all: try (chain_logs; set_solver).
  all: try match goal with
           | H : bool_decide (_ <> _) = false |- _ =>
               apply bool_decide_eq_false in H; tauto
           end.
  all: repeat match goal with
              | H : bool_decide _ = false |- _ => apply bool_decide_eq_false in H
              end.
  all: exfalso; eauto using Qcnot_lt_le.
Qed.

Lemma pushes_only_elem {A} Q (m : M A) s a s' msg :
  pushes_only Q m -> m s = Return (a, s') -> msg ∈ log_errors s -> msg ∈ log_errors s'.
Proof.
  intros Hm H Hin. destruct (Hm _ _ _ H) as (added & -> & _). set_solver.
Qed.

Lemma pushes_only_Forall {A} Q (m : M A) s a s' :
  pushes_only Q m -> m s = Return (a, s') ->
  Forall Q (log_errors s) -> Forall Q (log_errors s').
Proof.
  intros Hm H Hall. destruct (Hm _ _ _ H) as (added & -> & Hadded).
  apply Forall_app. auto.
Qed.

(** The result of [validateDesignDNA], rule group by rule group. *)
Lemma validateDesignDNA_inv dna r :
  validateDesignDNA dna = Return r ->
  exists s1 s2 s3 s4 s5,
    validate_color dna {| log_errors := []; log_warnings := [] |}
    = Return (colorSystem (scores r), s1)
    /\ validate_typography dna s1 = Return (typographySystem (scores r), s2)
    /\ validate_motion dna s2 = Return (motionSystem (scores r), s3)
    /\ validate_geometry dna s3 = Return (geometricSystem (scores r), s4)
    /\ validate_uniqueness dna s4 = Return (uniqueness (scores r), s5)
    /\ errors r = log_errors s5
    /\ warnings r = log_warnings s5
    /\ technicalValidity (scores r)
       = (if bool_decide (length (errors r) = 0%nat) then 4 else 2)
    /\ valid r = bool_decide (3 <= Math_min (Object_values (scores r)))
                 && bool_decide (length (errors r) = 0%nat).
Proof.
  unfold validateDesignDNA.
  destruct (validate_all dna _) as [[sc s5]|e] eqn:Hall; [|discriminate].
  intros [= <-]. cbn [scores errors warnings valid].
  unfold validate_all in Hall.
  apply bind_inv in Hall as (x1 & s1 & H1 & Hall).
  apply bind_inv in Hall as (x2 & s2 & H2 & Hall).
  apply bind_inv in Hall as (x3 & s3 & H3 & Hall).
  apply bind_inv in Hall as (x4 & s4 & H4 & Hall).
  apply bind_inv in Hall as (x5 & s5' & H5 & Hall).
  apply bind_inv in Hall as (n & s6 & H6 & Hall).
  unfold errors_length in H6. injection H6 as <- <-.
  apply ret_inv in Hall as [-> ->]. cbn.
  exists s1, s2, s3, s4, s5'. repeat split; assumption.
Qed.

End ValidatorInv.

(** ** When the validator throws *)

Section ValidatorReads.
Context {chroma : ChromaJs} {fmt : NumberFormat}.

Ltac use_reads :=
  unfold color_reads_ok, typography_reads_ok, motion_reads_ok, geometry_reads_ok,
    uniqueness_reads_ok;
  repeat (match goal with
          | H : ?f ?x = Some _ |- context [?f ?x] => rewrite H
          | H : ?f ?x = None |- context [?f ?x] => rewrite H
          end; cbn [mbind option_bind present andb]).

Lemma validate_color_reads dna s :
  (exists a s', validate_color dna s = Return (a, s')) <-> color_reads_ok dna = true.
Proof.
  split.
  - intros (a & s' & H). unfold validate_color in H. cbv zeta in H.
    inv_M; use_reads; reflexivity.
  - unfold color_reads_ok. intros Hok.
    cut (returns (validate_color dna)); [intros R; apply R|].
    unfold validate_color. cbv zeta.
    destruct (primitives dna) as [p|] eqn:Hp; cbn in Hok; [|discriminate].
    destruct (color p) as [k|] eqn:Hk; cbn in Hok; [|discriminate].
    destruct (palette k) as [pal|] eqn:Hpal; [|discriminate].
    read_present.
    destruct (pal !! "text"%string) as [t|] eqn:Ht;
      [destruct (pal !! "background"%string) as [b|] eqn:Hb;
       [destruct (contrastRatios k) as [cr|] eqn:Hcr; [|discriminate]|]|];
      repeat returns_step.
Qed.

Lemma validate_typography_reads dna s :
  (exists a s', validate_typography dna s = Return (a, s')) <-> typography_reads_ok dna = true.
Proof.
  split.
  - intros (a & s' & H). unfold validate_typography in H. cbv zeta in H.
    inv_M; use_reads; reflexivity.
  - unfold typography_reads_ok. intros Hok.
    cut (returns (validate_typography dna)); [intros R; apply R|].
    unfold validate_typography. cbv zeta.
    destruct (primitives dna) as [p|] eqn:Hp; cbn in Hok; [|discriminate].
    destruct (typography p) as [t|] eqn:Ht; cbn in Hok; [|discriminate].
    destruct (families t) as [f|] eqn:Hf; [|discriminate].
    destruct (heading f) as [hd|] eqn:Hhd; [|discriminate].
    destruct (body f) as [bd|] eqn:Hbd; [|discriminate].
    destruct (scale t) as [sc|] eqn:Hsc; [|discriminate].
    repeat returns_step.
Qed.

Lemma validate_motion_reads dna s :
  (exists a s', validate_motion dna s = Return (a, s')) <-> motion_reads_ok dna = true.
Proof.
  split.
  - intros (a & s' & H). unfold validate_motion in H. cbv zeta in H.
    inv_M; use_reads; reflexivity.
  - unfold motion_reads_ok. intros Hok.
    cut (returns (validate_motion dna)); [intros R; apply R|].
    unfold validate_motion. cbv zeta.
    destruct (primitives dna) as [p|] eqn:Hp; cbn in Hok; [|discriminate].
    destruct (motion p) as [mo|] eqn:Hmo; [|discriminate].
    repeat returns_step.
Qed.

Lemma validate_geometry_reads dna s :
  (exists a s', validate_geometry dna s = Return (a, s')) <-> geometry_reads_ok dna = true.
Proof.
  split.
  - intros (a & s' & H). unfold validate_geometry in H. cbv zeta in H.
    inv_M; use_reads; reflexivity.
  - unfold geometry_reads_ok. intros Hok.
    cut (returns (validate_geometry dna)); [intros R; apply R|].
    unfold validate_geometry. cbv zeta.
    destruct (primitives dna) as [p|] eqn:Hp; cbn in Hok; [|discriminate].
    destruct (geometry p) as [ge|] eqn:Hge; cbn in Hok; [|discriminate].
    destruct (borderRadius ge) as [br|] eqn:Hbr; [|discriminate].
    repeat returns_step.
Qed.

Lemma validate_uniqueness_reads dna s :
  (exists a s', validate_uniqueness dna s = Return (a, s')) <-> uniqueness_reads_ok dna = true.
Proof.
  split.
  - intros (a & s' & H). unfold validate_uniqueness in H. cbv zeta in H.
    inv_M; use_reads; reflexivity.
  - unfold uniqueness_reads_ok. intros Hok.
    cut (returns (validate_uniqueness dna)); [intros R; apply R|].
    unfold validate_uniqueness. cbv zeta.
    destruct (meta dna) as [m|] eqn:Hm; [|discriminate].
    destruct (personality m) as [ps|] eqn:Hps; [|discriminate].
    destruct (antiPatterns m) as [ap|] eqn:Hap; [|discriminate].
    repeat returns_step.
Qed.

(** The validator returns exactly on the documents that have every
    dereferenced object. *)
Lemma validateDesignDNA_returns_iff dna :
  (exists r, validateDesignDNA dna = Return r) <-> reads_ok dna = true.
Proof.
  unfold reads_ok. rewrite !andb_true_iff.
  split.
  - intros (r & H). apply validateDesignDNA_inv in H.
    destruct H as (s1 & s2 & s3 & s4 & s5 & H1 & H2 & H3 & H4 & H5 & _).
    repeat split.
    + apply (validate_color_reads dna {| log_errors := []; log_warnings := [] |}). eauto.
    + apply (validate_typography_reads dna s1). eauto.
    + apply (validate_motion_reads dna s2). eauto.
    + apply (validate_geometry_reads dna s3). eauto.
    + apply (validate_uniqueness_reads dna s4). eauto.
  - intros ((((Hc & Ht) & Hm) & Hg) & Hu).
    apply (validate_color_reads dna {| log_errors := []; log_warnings := [] |}) in Hc
      as (x1 & s1 & H1).
    apply (validate_typography_reads dna s1) in Ht as (x2 & s2 & H2).
    apply (validate_motion_reads dna s2) in Hm as (x3 & s3 & H3).
    apply (validate_geometry_reads dna s3) in Hg as (x4 & s4 & H4).
    apply (validate_uniqueness_reads dna s4) in Hu as (x5 & s5 & H5).
    unfold validateDesignDNA, validate_all, bind.
    rewrite H1, H2, H3, H4, H5. cbn. eauto.
Qed.

End ValidatorReads.

(** ** Properties of the validator *)

Lemma foldl_min_ge (n x : Z) (xs : list Z) :
  n <= foldl Z.min x xs <-> n <= x /\ Forall (fun y => n <= y) xs.
Proof.
  revert x. induction xs as [|y xs IH]; intros x; cbn [foldl].
  - split; [intros H; split; [exact H|constructor]|intros [H _]; exact H].
  - rewrite IH, Forall_cons. split.
    + intros [H1 H2]. repeat split; [lia|lia|exact H2].
    + intros (H1 & H2 & H3). split; [lia|exact H3].
Qed.

Lemma Math_min_ge (n : Z) (s : Scores) :
  n <= Math_min (Object_values s) <-> Forall (fun y => n <= y) (Object_values s).
Proof.
  unfold Object_values, Math_min. rewrite foldl_min_ge, (Forall_cons _ (colorSystem s)).
  reflexivity.
Qed.

Lemma includes_inter_banned (s : string) :
  includes s "inter" = true -> is_banned (Some s) = true.
Proof. intros H. unfold is_banned, BANNED_FONTS. cbn [existsb]. rewrite H. reflexivity. Qed.

Section ValidatorProperties.
Context {chroma : ChromaJs} {fmt : NumberFormat}.

(** [valid] is the conjunction of the code: no error and a minimum score
    of at least 3. *)
Lemma valid_true_iff (dna : DesignDNA) (r : ValidationResult) :
  validateDesignDNA dna = Return r ->
  (valid r = true <-> errors r = [] /\ 3 <= Math_min (Object_values (scores r))).
Proof.
  intros H. apply validateDesignDNA_inv in H.
  destruct H as (s1 & s2 & s3 & s4 & s5 & _ & _ & _ & _ & _ & _ & _ & _ & Hvalid).
  rewrite Hvalid, andb_true_iff, !bool_decide_eq_true, length_zero_iff_nil. tauto.
Qed.

(** C1.  When [validateDesignDNA] returns a report, [valid] is true
    exactly when the list of errors is empty and the minimum of the six
    category scores is at least 3, that is when each of the six is; so
    no error and a score of 2 give [valid = false], no error and six
    scores of at least 3 give [valid = true]. *)
Theorem validateDesignDNA_valid_iff (dna : DesignDNA) (r : ValidationResult) :
  validateDesignDNA dna = Return r ->
  (valid r = true <-> errors r = [] /\ 3 <= Math_min (Object_values (scores r)))
  /\ (3 <= Math_min (Object_values (scores r))
      <-> Forall (fun x => 3 <= x) (Object_values (scores r)))
  /\ (errors r = [] -> 2 ∈ Object_values (scores r) -> valid r = false)
  /\ (errors r = [] -> Forall (fun x => 3 <= x) (Object_values (scores r)) ->
      valid r = true).
Proof.
  intros H. pose proof (valid_true_iff dna r H) as Hiff.
  split; [exact Hiff|]. split; [apply Math_min_ge|]. split.
  - intros Herr H2. apply not_true_is_false. rewrite Hiff, Math_min_ge.
    intros [_ Hall]. rewrite Forall_forall in Hall. specialize (Hall _ H2). lia.
  - intros Herr Hall. apply Hiff. split; [exact Herr|]. apply Math_min_ge. exact Hall.
Qed.

(** C3 (as amended).  When the report is returned: with the body font
    [inter] the body rule adds no error and no cap, the typography score
    being 4 unless the heading font is banned or the scale ratio is
    missing, in which cases it is 1; with a heading font that contains
    [inter] the heading error is among the errors, the typography score
    is 1 and the document is not valid. *)
Theorem inter_body_is_not_capped (dna : DesignDNA) (r : ValidationResult) :
  validateDesignDNA dna = Return r ->
  (bodyFont_of dna = Some "inter"%string ->
     (body_font_message (Some "inter"%string) ∉ errors r)
     /\ typographySystem (scores r)
        = (if is_banned (headingFont_of dna) || falsy_number (ratio_of dna) then 1 else 4))
  /\ (forall font : string,
        headingFont_of dna = Some font -> includes font "inter" = true ->
        heading_font_message (Some font) ∈ errors r
        /\ typographySystem (scores r) = 1
        /\ valid r = false).
Proof.
  intros H. pose proof (valid_true_iff dna r H) as Hvalid.
  apply validateDesignDNA_inv in H.
  destruct H as (s1 & s2 & s3 & s4 & s5 & H1 & H2 & H3 & H4 & H5 & Herr & _).
  destruct (validate_typography_inv _ _ _ _ H2) as [Hheading Hbody].
  split.
  - intros Hb. destruct (Hbody Hb) as (Hscore & added & Hadded & Hall).
    split; [|exact Hscore].
    assert (Hother : Forall other_message (errors r)).
    { rewrite Herr.
      eapply pushes_only_Forall; [apply validate_uniqueness_pushes|exact H5|].
      eapply pushes_only_Forall; [apply validate_geometry_pushes|exact H4|].
      eapply pushes_only_Forall; [apply validate_motion_pushes|exact H3|].
      rewrite Hadded. apply Forall_app. split; [|exact Hall].
      eapply pushes_only_Forall; [apply validate_color_pushes|exact H1|].
      constructor. }
    rewrite Forall_forall in Hother. intros Hin. exact (Hother _ Hin eq_refl).
  - intros font Hfont Hinc.
    assert (Hban : is_banned (headingFont_of dna) = true)
      by (rewrite Hfont; apply includes_inter_banned; exact Hinc).
    destruct (Hheading Hban) as [Hscore Hin]. rewrite Hfont in Hin.
    assert (Hin' : heading_font_message (Some font) ∈ errors r).
    { rewrite Herr.
      eapply pushes_only_elem; [apply validate_uniqueness_pushes|exact H5|].
      eapply pushes_only_elem; [apply validate_geometry_pushes|exact H4|].
      eapply pushes_only_elem; [apply validate_motion_pushes|exact H3|].
      exact Hin. }
    split; [exact Hin'|]. split; [exact Hscore|].
    apply not_true_is_false. rewrite Hvalid. intros [Hnil _].
    rewrite Hnil in Hin'. set_solver.
Qed.

(** C4, on the code.  For a model other than [oklch] the color-model
    error is reported, but the color score is 1 only when the palette
    lacks a text or a background color or their contrast is below 4.5:
    with both colors present the later assignments overwrite it with 3
    (contrast at least 4.5) or 4 (contrast at least 7). *)
Theorem color_model_score_overwritten (dna : DesignDNA) (r : ValidationResult) :
  validateDesignDNA dna = Return r ->
  model_of dna <> Some "oklch"%string ->
  color_model_message ∈ errors r
  /\ valid r = false
  /\ colorSystem (scores r) =
     match palette_color "text" dna, palette_color "background" dna with
     | Some textColor, Some bgColor =>
         if bool_decide (num 7 <= getContrastRatio textColor bgColor)%Qc then 4
         else if bool_decide (num 4.5 <= getContrastRatio textColor bgColor)%Qc then 3
         else 1
     | _, _ => 1
     end.
Proof.
  intros H Hmodel. pose proof (valid_true_iff dna r H) as Hvalid.
  apply validateDesignDNA_inv in H.
  destruct H as (s1 & s2 & s3 & s4 & s5 & H1 & H2 & H3 & H4 & H5 & Herr & _).
  destruct (validate_color_inv _ _ _ _ H1) as [Hmsg Hscore].
  assert (Hin : color_model_message ∈ errors r).
  { rewrite Herr.
    eapply pushes_only_elem; [apply validate_uniqueness_pushes|exact H5|].
    eapply pushes_only_elem; [apply validate_geometry_pushes|exact H4|].
    eapply pushes_only_elem; [apply validate_motion_pushes|exact H3|].
    eapply pushes_only_elem; [apply validate_typography_appends|exact H2|].
    apply Hmsg. exact Hmodel. }
  split; [exact Hin|]. split.
  - apply not_true_is_false. rewrite Hvalid. intros [Hnil _].
    rewrite Hnil in Hin. set_solver.
  - rewrite Hscore. rewrite (bool_decide_eq_true_2 _ Hmodel). reflexivity.
Qed.

(** C7 (as amended).  [validateDesignDNA] throws exactly on the documents
    that lack one of the objects it dereferences: [primitives], its
    [color], [typography], [motion] and [geometry], [color.palette],
    [color.contrastRatios] when the palette has a text and a background,
    [typography.families], its [heading] and [body],
    [typography.scale], [geometry.borderRadius], [meta], its
    [personality] and [antiPatterns].  On every other document it returns
    a report, whatever else is absent. *)
Theorem validateDesignDNA_throws_iff (dna : DesignDNA) :
  ((exists e, validateDesignDNA dna = Throw e) <-> reads_ok dna = false)
  /\ ((exists r, validateDesignDNA dna = Return r) <-> reads_ok dna = true).
Proof.
  split; [|apply validateDesignDNA_returns_iff].
  rewrite <- not_true_iff_false, <- validateDesignDNA_returns_iff.
  destruct (validateDesignDNA dna) as [r|e].
  - split; [intros [e He]; discriminate|intros Hn; exfalso; eauto].
  - split; [intros _ [r Hr]; discriminate|eauto].
Qed.

End ValidatorProperties.

(** ** The properties on the sample documents *)

(** The sample document passes, whatever the contrast function. *)
Lemma sample_dna_is_valid (chroma : ChromaJs) (fmt : NumberFormat) :
  validateDesignDNA sample_dna = Return clean_report.
Proof. vm_compute. reflexivity. Qed.

(** A document that has only the dereferenced objects is reported on,
    with seven errors, and is not valid. *)
Lemma bare_dna_is_reported (chroma : ChromaJs) (fmt : NumberFormat) :
  exists r, validateDesignDNA bare_dna = Return r
            /\ length (errors r) = 7%nat /\ valid r = false.
Proof. eexists. split; [vm_compute; reflexivity|]. split; reflexivity. Qed.

(** C1 on the document with a generic personality keyword: no error, a
    uniqueness score of 2, not valid. *)
Lemma validateDesignDNA_valid_iff_witness :
  @validateDesignDNA lightness_chroma plain_format generic_dna = Return generic_report
  /\ errors generic_report = []
  /\ 2 ∈ Object_values (scores generic_report)
  /\ valid generic_report = false.
Proof.
  assert (H : @validateDesignDNA lightness_chroma plain_format generic_dna
              = Return generic_report) by (vm_compute; reflexivity).
  split; [exact H|]. split; [reflexivity|].
  assert (H2 : 2 ∈ Object_values (scores generic_report)).
  { unfold Object_values. cbn. repeat constructor. }
  split; [exact H2|].
  exact (proj1 (proj2 (proj2 (@validateDesignDNA_valid_iff lightness_chroma plain_format
                                generic_dna generic_report H))) eq_refl H2).
Defined.

(** C3, counterexample.  The sample with [Inter] as first body font gets
    a typography score of 4, not a score capped at 2, and passes. *)
Lemma inter_body_scores_4 :
  bodyFont_of inter_body_dna = Some "inter"%string
  /\ (forall (chroma : ChromaJs) (fmt : NumberFormat),
        validateDesignDNA inter_body_dna = Return clean_report)
  /\ typographySystem (scores clean_report) = 4
  /\ ~ (4 <= 2).
Proof.
  split; [reflexivity|]. split; [intros; vm_compute; reflexivity|].
  split; [reflexivity|lia].
Qed.

(** C3 (as amended) on the samples with [Inter] as body font and as
    heading font. *)
Lemma inter_body_is_not_capped_witness :
  (@validateDesignDNA lightness_chroma plain_format inter_body_dna = Return clean_report
   /\ bodyFont_of inter_body_dna = Some "inter"%string
   /\ (body_font_message (Some "inter"%string) ∉ errors clean_report)
   /\ typographySystem (scores clean_report) = 4)
  /\ (@validateDesignDNA lightness_chroma plain_format inter_heading_dna
      = Return inter_heading_report
      /\ headingFont_of inter_heading_dna = Some "inter"%string
      /\ heading_font_message (Some "inter"%string) ∈ errors inter_heading_report
      /\ typographySystem (scores inter_heading_report) = 1
      /\ valid inter_heading_report = false).
Proof.
  assert (H1 : @validateDesignDNA lightness_chroma plain_format inter_body_dna
               = Return clean_report) by (vm_compute; reflexivity).
  assert (H2 : @validateDesignDNA lightness_chroma plain_format inter_heading_dna
               = Return inter_heading_report) by (vm_compute; reflexivity).
  split.
  - split; [exact H1|]. split; [reflexivity|].
    exact (proj1 (@inter_body_is_not_capped lightness_chroma plain_format
                    inter_body_dna clean_report H1) eq_refl).
  - split; [exact H2|]. split; [reflexivity|].
    exact (proj2 (@inter_body_is_not_capped lightness_chroma plain_format
                    inter_heading_dna inter_heading_report H2)
             "inter"%string eq_refl eq_refl).
Defined.

(** C4 at the failing input: the model is [hex], the error is reported,
    and the color score is 4. *)
Lemma color_model_score_overwritten_witness :
  @validateDesignDNA lightness_chroma plain_format hex_dna = Return hex_report
  /\ model_of hex_dna <> Some "oklch"%string
  /\ color_model_message ∈ errors hex_report
  /\ valid hex_report = false
  /\ colorSystem (scores hex_report) = 4.
Proof.
  assert (H : @validateDesignDNA lightness_chroma plain_format hex_dna = Return hex_report)
    by (vm_compute; reflexivity).
  assert (Hm : model_of hex_dna <> Some "oklch"%string) by (vm_compute; discriminate).
  split; [exact H|]. split; [exact Hm|].
  destruct (@color_model_score_overwritten lightness_chroma plain_format
              hex_dna hex_report H Hm) as (Hin & Hvalid & _).
  split; [exact Hin|]. split; [exact Hvalid|reflexivity].
Defined.

(** C7, counterexample.  Without [meta.personality], without
    [typography.families.heading] or without [geometry.borderRadius] the
    validator throws. *)
Lemma validateDesignDNA_throws_on_absent :
  (forall (chroma : ChromaJs) (fmt : NumberFormat),
      validateDesignDNA no_personality_dna = Throw (TypeError "personality"))
  /\ (forall (chroma : ChromaJs) (fmt : NumberFormat),
        validateDesignDNA no_heading_dna = Throw (TypeError "heading"))
  /\ (forall (chroma : ChromaJs) (fmt : NumberFormat),
        validateDesignDNA no_borderRadius_dna = Throw (TypeError "borderRadius")).
Proof.
  repeat split; intros; vm_compute; reflexivity.
Qed.

(** * Further properties

    ** The palette generator *)

Local Open Scope Qc_scope.
Local Close Scope Z_scope.

(** A contrast function that reports the largest WCAG ratio for every
    pair; like the stand-ins above, it only serves to run the definitions. *)
Definition stark_chroma : ChromaJs :=
  {| chroma_color := unit;
     chroma_oklch := fun _ _ _ => tt;
     chroma_contrast := fun _ _ => num 21 |}.

(** X1.  [normalizeHue h] lies in [0, 360) for every [h].  For an
    integer [n] it is exactly [n] modulo 360: it differs from [n] by a
    whole number of turns, and normalising twice is normalising once. *)
Theorem normalizeHue_representative :
  (forall h : Qc, num 0 <= normalizeHue h /\ normalizeHue h < num 360)
  /\ (forall n : Z,
        normalizeHue (Qc_of_Z n) = Qc_of_Z (n mod 360)
        /\ normalizeHue (Qc_of_Z n) = Qc_of_Z n - num 360 * Qc_of_Z (n / 360)
        /\ normalizeHue (normalizeHue (Qc_of_Z n)) = normalizeHue (Qc_of_Z n)).
Proof.
  split; [apply normalizeHue_range|]. intros n. split; [apply normalizeHue_Z|]. split.
  - rewrite normalizeHue_Z. change (num 360) with (num (inject_Z 360)).
    rewrite num_Z, <- Z2Qc_inj_mul, <- Z2Qc_inj_sub. f_equal.
    Z.to_euclidean_division_equations; lia.
  - rewrite !normalizeHue_Z. f_equal. apply Z.mod_mod. lia.
Qed.

(** On doubles normalising twice is not normalising once: the double
    written [-71.96] is normalised to the double written [288.04], and
    that one to the double written [288.03999999999996]. *)
Example normalizeHue_twice :
  normalizeHue (f64 (num (-71.96))) = f64 (num 288.04)
  /\ normalizeHue (f64 (num 288.04)) = f64 (num 288.03999999999996).
Proof. split; apply Qc_is_canon; vm_compute; reflexivity. Qed.

Section GeneratorFurther.
Context {chroma : ChromaJs}.

(** X2.  Every hue of a generated palette lies in [0, 360), whatever the
    base hue, the mode and the theme. *)
Theorem generatePalette_hues_in_range (baseHue : Qc) (mode : HarmonyMode) (isDark : bool) :
  let p := generatePalette baseHue mode isDark in
  (num 0 <= h (primary p) /\ h (primary p) < num 360)
  /\ (num 0 <= h (secondary p) /\ h (secondary p) < num 360)
  /\ (num 0 <= h (accent p) /\ h (accent p) < num 360)
  /\ (num 0 <= h (background p) /\ h (background p) < num 360)
  /\ (num 0 <= h (text p) /\ h (text p) < num 360)
  /\ (num 0 <= h (muted p) /\ h (muted p) < num 360)
  /\ (num 0 <= h (border p) /\ h (border p) < num 360).
Proof.
  cbv zeta. unfold generatePalette, ensureContrast.
  cbn [text primary background secondary accent muted border set_text set_primary].
  rewrite !(proj2 (ensureContrast_loop_frame _ _ _)).
  destruct mode; cbn [initial_palette text primary background secondary accent muted border h];
    repeat split; apply normalizeHue_range.
Qed.

(** X3.  The hue offsets of the modes, for an integer base hue [n], modulo
    360: monochromatic keeps secondary at [n] and puts accent at
    [n + 180]; analogous puts secondary at [n + 30], accent at [n - 30]
    and muted at [n + 15]; split-complementary puts secondary at
    [n + 210] and accent at [n + 150], the two neighbours of the
    complement. *)
Theorem generatePalette_mode_offsets (n : Z) (isDark : bool) :
  (let p := generatePalette (Qc_of_Z n) monochromatic isDark in
   h (secondary p) = Qc_of_Z (n mod 360)
   /\ h (accent p) = Qc_of_Z ((n + 180) mod 360))
  /\ (let p := generatePalette (Qc_of_Z n) analogous isDark in
      h (secondary p) = Qc_of_Z ((n + 30) mod 360)
      /\ h (accent p) = Qc_of_Z ((n - 30) mod 360)
      /\ h (muted p) = Qc_of_Z ((n + 15) mod 360))
  /\ (let p := generatePalette (Qc_of_Z n) split_complementary isDark in
      h (secondary p) = Qc_of_Z ((n + 210) mod 360)
      /\ h (accent p) = Qc_of_Z ((n + 150) mod 360)).
Proof.
  cbv zeta. unfold generatePalette.
  cbn [secondary accent muted set_text set_primary initial_palette h].
  rewrite normalizeHue_Z.
  pose proof (Z.mod_pos_bound n 360 ltac:(lia)) as Hn.
  change (num 180) with (num (inject_Z 180)). change (num 30) with (num (inject_Z 30)).
  change (num 15) with (num (inject_Z 15)).
  rewrite !normalizeHue_add_Z, !normalizeHue_sub_Z by lia.
  pose proof (Z.mod_pos_bound (n mod 360 + 180) 360 ltac:(lia)) as Hc.
  rewrite !normalizeHue_add_Z, !normalizeHue_sub_Z by lia.
  repeat split; try reflexivity; f_equal; Z.to_euclidean_division_equations; lia.
Qed.

Lemma ensureContrast_loop_met (bg fg : OKLCHColor) (minRatio : Qc) :
  minRatio <= getContrastRatio fg bg -> ensureContrast_loop bg minRatio fg = fg.
Proof.
  intros Hmet. rewrite ensureContrast_loop_eq.
  unfold loop_test. rewrite (bool_decide_eq_false_2 _ (Qcle_not_lt _ _ Hmet)).
  reflexivity.
Qed.

(** X4.  When the foreground already meets the target ratio, the repair
    step returns it as it is. *)
Theorem ensureContrast_noop (fg bg : OKLCHColor) (minRatio : Qc) :
  minRatio <= getContrastRatio fg bg -> ensureContrast fg bg minRatio = fg.
Proof. intros Hmet. unfold ensureContrast. apply ensureContrast_loop_met. exact Hmet. Qed.

(** X5.  Repairing a repaired color changes nothing. *)
Theorem ensureContrast_idempotent (fg bg : OKLCHColor) (minRatio : Qc) :
  ensureContrast (ensureContrast fg bg minRatio) bg minRatio = ensureContrast fg bg minRatio.
Proof.
  unfold ensureContrast at 1. rewrite ensureContrast_loop_eq.
  fold (ensureContrast fg bg minRatio).
  pose proof (ensureContrast_loop_exit bg minRatio fg) as Hexit.
  fold (ensureContrast fg bg minRatio) in Hexit. rewrite Hexit. reflexivity.
Qed.

Lemma ensureContrast_loop_direction bg minRatio adjusted :
  (num 0.5 < l bg -> l (ensureContrast_loop bg minRatio adjusted) <= l adjusted)
  /\ (l bg <= num 0.5 -> l adjusted <= l (ensureContrast_loop bg minRatio adjusted)).
Proof.
  funelim (ensureContrast_loop bg minRatio adjusted).
  - destruct H as [Hlight Hdark]. split; intros Hbg.
    + eapply Qcle_trans; [apply Hlight; exact Hbg|].
      unfold loop_body, direction. rewrite (bool_decide_eq_true_2 _ Hbg). cbn [l].
      qc2q. lra.
    + eapply Qcle_trans; [|apply Hdark; exact Hbg].
      unfold loop_body, direction.
      rewrite (bool_decide_eq_false_2 _ (Qcle_not_lt _ _ Hbg)). cbn [l].
      qc2q. lra.
  - split; intros _; apply Qcle_refl.
Qed.

(** X6.  On a light background (lightness above 0.5) the repair step
    never lightens the foreground, and on any other background it never
    darkens it. *)
Theorem ensureContrast_direction (fg bg : OKLCHColor) (minRatio : Qc) :
  (num 0.5 < l bg -> l (ensureContrast fg bg minRatio) <= l fg)
  /\ (l bg <= num 0.5 -> l fg <= l (ensureContrast fg bg minRatio)).
Proof. apply ensureContrast_loop_direction. Qed.

(** X7.  The primary of every generated palette is the repaired initial
    primary: it reaches the ratio 4.5 against the background or its
    lightness left the open interval (0.05, 0.95).  Repairing the primary
    leaves the repaired text and the background in place, and both
    repairs are against the background first built. *)
Theorem generatePalette_primary_floor (baseHue : Qc) (mode : HarmonyMode) (isDark : bool) :
  let p := generatePalette baseHue mode isDark in
  let p0 := initial_palette (normalizeHue baseHue) mode isDark in
  primary p = ensureContrast (primary p0) (background p0) (num 4.5)
  /\ text p = ensureContrast (text p0) (background p0) (num 7.0)
  /\ background p = background p0
  /\ (num 4.5 <= getContrastRatio (primary p) (background p)
      \/ l (primary p) <= num 0.05
      \/ num 0.95 <= l (primary p)).
Proof.
  cbv zeta. unfold generatePalette. cbn [primary text background set_text set_primary].
  split; [reflexivity|]. split; [reflexivity|]. split; [reflexivity|].
  set (p0 := initial_palette (normalizeHue baseHue) mode isDark).
  pose proof (ensureContrast_loop_exit (background p0) (num 4.5) (primary p0)) as Hexit.
  fold (ensureContrast (primary p0) (background p0) (num 4.5)) in Hexit.
  unfold loop_test in Hexit.
  apply andb_false_iff in Hexit as [Hexit|Hexit];
    [apply andb_false_iff in Hexit as [Hexit|Hexit]|];
    apply bool_decide_eq_false in Hexit; apply Qcnot_lt_le in Hexit; auto.
Qed.

(** X8.  The theme keeps its polarity.  In the light theme the
    background has lightness 0.98 and text and primary are at most as
    light as first built (0.18 and 0.45); in the dark theme the
    background has lightness 0.12 and text and primary are at least as
    light as first built (0.92 and 0.65).  In both themes the two stay
    strictly between 0.03 and 0.97. *)
Theorem generatePalette_polarity (baseHue : Qc) (mode : HarmonyMode) :
  (let p := generatePalette baseHue mode false in
   l (background p) = num 0.98
   /\ (num 0.03 < l (text p) /\ l (text p) <= num 0.18)
   /\ (num 0.03 < l (primary p) /\ l (primary p) <= num 0.45))
  /\ (let p := generatePalette baseHue mode true in
      l (background p) = num 0.12
      /\ (num 0.92 <= l (text p) /\ l (text p) < num 0.97)
      /\ (num 0.65 <= l (primary p) /\ l (primary p) < num 0.97)).
Proof.
  cbv zeta. unfold generatePalette. cbn [text primary background set_text set_primary].
  split.
  - set (p0 := initial_palette (normalizeHue baseHue) mode false).
    assert (Hbg : l (background p0) = num 0.98) by (destruct mode; reflexivity).
    assert (Ht : l (text p0) = num 0.18) by (destruct mode; reflexivity).
    assert (Hp : l (primary p0) = num 0.45) by (destruct mode; reflexivity).
    assert (Hlight : num 0.5 < l (background p0)) by (rewrite Hbg; vm_compute; reflexivity).
    split; [exact Hbg|]. split.
    + split.
      * apply ensureContrast_loop_within; rewrite Ht; vm_compute; reflexivity.
      * rewrite <- Ht. apply ensureContrast_loop_direction. exact Hlight.
    + split.
      * apply ensureContrast_loop_within; rewrite Hp; vm_compute; reflexivity.
      * rewrite <- Hp. apply ensureContrast_loop_direction. exact Hlight.
  - set (p0 := initial_palette (normalizeHue baseHue) mode true).
    assert (Hbg : l (background p0) = num 0.12) by (destruct mode; reflexivity).
    assert (Ht : l (text p0) = num 0.92) by (destruct mode; reflexivity).
    assert (Hp : l (primary p0) = num 0.65) by (destruct mode; reflexivity).
    assert (Hdark : l (background p0) <= num 0.5) by (rewrite Hbg; vm_compute; discriminate).
    split; [exact Hbg|]. split.
    + split.
      * rewrite <- Ht. apply ensureContrast_loop_direction. exact Hdark.
      * apply ensureContrast_loop_within; rewrite Ht; vm_compute; reflexivity.
    + split.
      * rewrite <- Hp. apply ensureContrast_loop_direction. exact Hdark.
      * apply ensureContrast_loop_within; rewrite Hp; vm_compute; reflexivity.
Qed.

(** X9.  When the text first built already has the ratio 7 and the
    primary first built the ratio 4.5 against the background, the
    palette returned is the palette first built. *)
Theorem generatePalette_unchanged (baseHue : Qc) (mode : HarmonyMode) (isDark : bool) :
  let p0 := initial_palette (normalizeHue baseHue) mode isDark in
  num 7.0 <= getContrastRatio (text p0) (background p0) ->
  num 4.5 <= getContrastRatio (primary p0) (background p0) ->
  generatePalette baseHue mode isDark = p0.
Proof.
  cbv zeta. intros Ht Hp. unfold generatePalette.
  cbn [text primary background set_text set_primary].
  unfold ensureContrast.
  rewrite (ensureContrast_loop_met _ _ _ Ht), (ensureContrast_loop_met _ _ _ Hp).
  destruct (initial_palette (normalizeHue baseHue) mode isDark). reflexivity.
Qed.

End GeneratorFurther.

(** X4 where the ratio of the stand-in, 1.03 / 0.23, exceeds a target of 4. *)
Lemma ensureContrast_noop_witness :
  num 4 <= @getContrastRatio lightness_chroma ink paper
  /\ @ensureContrast lightness_chroma ink paper (num 4) = ink.
Proof.
  assert (H : num 4 <= @getContrastRatio lightness_chroma ink paper)
    by (vm_compute; discriminate).
  split; [exact H|]. exact (@ensureContrast_noop lightness_chroma ink paper (num 4) H).
Defined.

(** X9 with the contrast function that always reports 21. *)
Lemma generatePalette_unchanged_witness :
  num 7.0 <= @getContrastRatio stark_chroma
               (text (initial_palette (normalizeHue (num 220)) split_complementary false))
               (background (initial_palette (normalizeHue (num 220)) split_complementary false))
  /\ num 4.5 <= @getContrastRatio stark_chroma
                  (primary (initial_palette (normalizeHue (num 220)) split_complementary false))
                  (background (initial_palette (normalizeHue (num 220)) split_complementary false))
  /\ @generatePalette stark_chroma (num 220) split_complementary false
     = initial_palette (normalizeHue (num 220)) split_complementary false.
Proof.
  assert (H7 : forall a b, num 7.0 <= @getContrastRatio stark_chroma a b)
    by (intros; vm_compute; discriminate).
  assert (H45 : forall a b, num 4.5 <= @getContrastRatio stark_chroma a b)
    by (intros; vm_compute; discriminate).
  split; [apply H7|]. split; [apply H45|].
  exact (@generatePalette_unchanged stark_chroma (num 220) split_complementary false
           (H7 _ _) (H45 _ _)).
Defined.

(** ** The command line of generate-palette.ts *)

Local Close Scope Qc_scope.
Local Open Scope Z_scope.

(** [parseInt], a built-in: [None] stands for [NaN]. *)
Class JsParseInt := { parseInt : string -> option Z }.

(** The mode as [generatePalette] receives it at run time, a string: the
    four cases of the [switch]. *)
Definition HarmonyMode_of_string (mode : string) : option HarmonyMode :=
  if bool_decide (mode = "monochromatic"%string) then Some monochromatic
  else if bool_decide (mode = "analogous"%string) then Some analogous
  else if bool_decide (mode = "split-complementary"%string) then Some split_complementary
  else if bool_decide (mode = "triadic"%string) then Some triadic
  else None.

(** [generatePalette] on a mode given as a string.  The [switch] has no
    default case: for any other string [palette] stays undefined and
    reading [palette.text] throws. *)
Definition generatePalette_js {chroma : ChromaJs}
    (baseHue : Qc) (mode : string) (isDark : bool) : completion GeneratedPalette :=
  match HarmonyMode_of_string mode with
  | Some m => Return (generatePalette baseHue m isDark)
  | None => Throw (TypeError "palette")
  end.

Inductive OutputFormat := preview | json | css.

(** The four variables that the loop of [main] sets. *)
Record CliOptions := {
  cli_hue : Z;
  cli_mode : string;
  cli_isDark : bool;
  cli_outputFormat : OutputFormat
}.

Definition cli_defaults : CliOptions :=
  {| cli_hue := 220; cli_mode := "split-complementary";
     cli_isDark := false; cli_outputFormat := preview |}.

(** [parseInt(v) || 220]: [NaN] and [0] are falsy. *)
Definition hue_or_220 (n : option Z) : Z :=
  match n with
  | Some z => if bool_decide (z = 0) then 220 else z
  | None => 220
  end.

(** [v || 'split-complementary']: [undefined] and the empty string are
    falsy. *)
Definition mode_or_default (v : option string) : string :=
  match v with
  | Some s => if bool_decide (s = EmptyString) then "split-complementary"%string else s
  | None => "split-complementary"%string
  end.

(** How the loop over the arguments ends: with the options set, or in
    [process.exit]. *)
Inductive cli_parse := Parsed (o : CliOptions) | Exit (code : Z).

Section GeneratorMain.
Context {chroma : ChromaJs} {js : JsParseInt}.

(** The loop [for (let i = 0; i < args.length; i++) switch (args[i])] of
    [main]: [args[++i]] takes the next argument, when there is one, as
    the value of [--hue] or [--mode]. *)
Fixpoint parse_args (args : list string) (o : CliOptions) : cli_parse :=
  match args with
  | [] => Parsed o
  | a :: rest =>
      if bool_decide (a = "--hue"%string \/ a = "-h"%string) then
        let set_hue v := {| cli_hue := hue_or_220 v; cli_mode := cli_mode o;
                            cli_isDark := cli_isDark o;
                            cli_outputFormat := cli_outputFormat o |} in
        match rest with
        | v :: rest' => parse_args rest' (set_hue (parseInt v))
        | [] => Parsed (set_hue None)
        end
      else if bool_decide (a = "--mode"%string \/ a = "-m"%string) then
        let set_mode v := {| cli_hue := cli_hue o; cli_mode := mode_or_default v;
                             cli_isDark := cli_isDark o;
                             cli_outputFormat := cli_outputFormat o |} in
        match rest with
        | v :: rest' => parse_args rest' (set_mode (Some v))
        | [] => Parsed (set_mode None)
        end
      else if bool_decide (a = "--dark"%string \/ a = "-d"%string) then
        parse_args rest {| cli_hue := cli_hue o; cli_mode := cli_mode o;
                           cli_isDark := true;
                           cli_outputFormat := cli_outputFormat o |}
      else if bool_decide (a = "--json"%string) then
        parse_args rest {| cli_hue := cli_hue o; cli_mode := cli_mode o;
                           cli_isDark := cli_isDark o; cli_outputFormat := json |}
      else if bool_decide (a = "--css"%string) then
        parse_args rest {| cli_hue := cli_hue o; cli_mode := cli_mode o;
                           cli_isDark := cli_isDark o; cli_outputFormat := css |}
      else if bool_decide (a = "--help"%string) then Exit 0
      else parse_args rest o
  end.

(** How [main] ends, up to what it prints: in [process.exit], in an
    uncaught exception, or with the palette it goes on to print. *)
Inductive main_outcome :=
| Exited (code : Z)
| Thrown (e : exn)
| Shown (o : CliOptions) (p : GeneratedPalette).

Definition main_palette (args : list string) : main_outcome :=
  match parse_args args cli_defaults with
  | Exit code => Exited code
  | Parsed o =>
      match generatePalette_js (Qc_of_Z (cli_hue o)) (cli_mode o) (cli_isDark o) with
      | Throw e => Thrown e
      | Return p => Shown o p
      end
  end.

End GeneratorMain.

(** A stand-in for [parseInt] that reads an unsigned decimal numeral. *)
Fixpoint read_digits (s : string) (acc : Z) : option Z :=
  match s with
  | EmptyString => Some acc
  | String a s' =>
      let n := Z.of_nat (nat_of_ascii a) in
      if bool_decide (48 <= n <= 57) then read_digits s' (10 * acc + (n - 48)) else None
  end.

Definition decimal_parseInt : JsParseInt :=
  {| parseInt := fun s => if bool_decide (s = EmptyString) then None else read_digits s 0 |}.

From Stdlib Require Import FunInd.

Functional Scheme parse_args_ind := Induction for parse_args Sort Prop.

Section GeneratorMainFacts.
Context {chroma : ChromaJs} {js : JsParseInt}.

Lemma hue_or_220_nonzero (n : option Z) : hue_or_220 n <> 0.
Proof.
  unfold hue_or_220. destruct n as [z|]; [|discriminate].
  case_bool_decide; [discriminate|assumption].
Qed.

Lemma mode_or_default_nonempty (v : option string) : mode_or_default v <> EmptyString.
Proof.
  unfold mode_or_default. destruct v as [s|]; [|discriminate].
  case_bool_decide; [discriminate|assumption].
Qed.

Lemma parse_args_invariant (args : list string) (o0 o : CliOptions) :
  cli_hue o0 <> 0 -> cli_mode o0 <> EmptyString ->
  parse_args args o0 = Parsed o ->
  cli_hue o <> 0 /\ cli_mode o <> EmptyString.
Proof.
  revert o. functional induction (parse_args args o0); intros o' Hh Hm Hrun.
  all: try (injection Hrun as <-).
  all: try discriminate.
  all: try match goal with
           | IH : forall o, _ -> _ -> _ = Parsed o -> _ |- _ =>
               eapply IH; [| |exact Hrun]
           end.
  all: cbn [cli_hue cli_mode]; try split.
  all: first [assumption | apply hue_or_220_nonzero | apply mode_or_default_nonempty
             | discriminate].
Qed.

(** A value of the command line: the argument [v] right after the flag
    [flag]. *)
Definition value_of (args : list string) (flag v : string) : Prop :=
  exists pre post, args = pre ++ flag :: v :: post.

Lemma value_of_cons (a : string) (args : list string) (flag v : string) :
  value_of args flag v -> value_of (a :: args) flag v.
Proof. intros (pre & post & ->). exists (a :: pre), post. reflexivity. Qed.

Lemma value_of_here (flag v : string) (rest : list string) :
  value_of (flag :: v :: rest) flag v.
Proof. exists [], rest. reflexivity. Qed.

Lemma hue_or_220_cases (n : option Z) :
  hue_or_220 n = 220 \/ (exists z, n = Some z /\ z <> 0 /\ hue_or_220 n = z).
Proof.
  unfold hue_or_220. destruct n as [z|]; [|auto].
  case_bool_decide; [auto|]. right. exists z. auto.
Qed.

Lemma mode_or_default_cases (v : option string) :
  mode_or_default v = "split-complementary"%string
  \/ (exists s, v = Some s /\ s <> EmptyString /\ mode_or_default v = s).
Proof.
  unfold mode_or_default. destruct v as [s|]; [|auto].
  case_bool_decide; [auto|]. right. exists s. auto.
Qed.

(** Where the hue comes from. *)
Lemma parse_args_hue (args : list string) (o0 o : CliOptions) :
  parse_args args o0 = Parsed o ->
  cli_hue o = cli_hue o0
  \/ cli_hue o = 220
  \/ exists flag v,
       (flag = "--hue"%string \/ flag = "-h"%string)
       /\ value_of args flag v
       /\ parseInt v = Some (cli_hue o) /\ cli_hue o <> 0.
Proof.
  revert o. functional induction (parse_args args o0); intros o' Hrun.
  all: try (injection Hrun as <-); try discriminate.
  all: try match goal with
           | IH : forall o, _ = Parsed o -> _ |- _ =>
               specialize (IH _ Hrun); cbn [cli_hue] in IH
           end.
  all: cbn [cli_hue].
  all: repeat match goal with
              | H : bool_decide _ = true |- _ => apply bool_decide_eq_true in H
              end.
  all: try (left; reflexivity).
  all: try match goal with
           | IH : _ \/ _ \/ _ |- _ =>
               destruct IH as [IH|[IH|(flag & w & Hf & Hv & Hp)]];
               [|right; left; exact IH
                |right; right; exists flag, w;
                 split; [exact Hf|split; [|exact Hp]];
                 repeat apply value_of_cons; exact Hv]
           end.
  all: try (left; assumption).
  all: try match goal with
           | IH : _ = hue_or_220 ?n |- _ =>
               destruct (hue_or_220_cases n) as [E|(z & En & Hz & E)]; rewrite E in IH
           | |- context [hue_or_220 ?n] =>
               destruct (hue_or_220_cases n) as [E|(z & En & Hz & E)]
           end.
  all: try (right; left; congruence).
  all: try (right; right; eexists _, _; split; [eassumption|];
            split; [apply value_of_here|]; split; congruence).
Qed.

(** Where the mode comes from. *)
Lemma parse_args_mode (args : list string) (o0 o : CliOptions) :
  parse_args args o0 = Parsed o ->
  cli_mode o = cli_mode o0
  \/ cli_mode o = "split-complementary"%string
  \/ exists flag,
       (flag = "--mode"%string \/ flag = "-m"%string)
       /\ value_of args flag (cli_mode o) /\ cli_mode o <> EmptyString.
Proof.
  revert o. functional induction (parse_args args o0); intros o' Hrun.
  all: try (injection Hrun as <-); try discriminate.
  all: try match goal with
           | IH : forall o, _ = Parsed o -> _ |- _ =>
               specialize (IH _ Hrun); cbn [cli_mode] in IH
           end.
  all: cbn [cli_mode].
  all: repeat match goal with
              | H : bool_decide _ = true |- _ => apply bool_decide_eq_true in H
              end.
  all: try (left; reflexivity).
  all: try match goal with
           | IH : _ \/ _ \/ _ |- _ =>
               destruct IH as [IH|[IH|(flag & Hf & Hv & Hp)]];
               [|right; left; exact IH
                |right; right; exists flag;
                 split; [exact Hf|split; [|exact Hp]];
                 repeat apply value_of_cons; exact Hv]
           end.
  all: try (left; assumption).
  all: try match goal with
           | IH : _ = mode_or_default ?n |- _ =>
               destruct (mode_or_default_cases n) as [E|(z & En & Hz & E)]; rewrite E in IH
           | |- context [mode_or_default ?n] =>
               destruct (mode_or_default_cases n) as [E|(z & En & Hz & E)]
           end.
  all: try (right; left; congruence).
  all: try (right; right; eexists; split; [eassumption|];
            match goal with
            | En : Some ?v = Some ?z, IH : cli_mode _ = ?z |- _ =>
                injection En as En; rewrite IH, <- En;
                split; [apply value_of_here|congruence]
            end).
Qed.

(** X10.  The hue that [main] passes on is 220, or the number other than
    0 that [parseInt] reads from the argument right after a [--hue] or
    [-h]; the mode is [split-complementary], or the non-empty argument
    right after a [--mode] or [-m].  So a hue that reads as 0 or does not
    read as a number gives 220, an empty mode gives the default, and the
    hue is never 0 and the mode never empty. *)
Theorem parse_args_never_zero_hue (args : list string) (o : CliOptions) :
  parse_args args cli_defaults = Parsed o ->
  (cli_hue o = 220
   \/ exists flag v,
        (flag = "--hue"%string \/ flag = "-h"%string)
        /\ value_of args flag v
        /\ parseInt v = Some (cli_hue o))
  /\ (cli_mode o = "split-complementary"%string
      \/ exists flag,
           (flag = "--mode"%string \/ flag = "-m"%string)
           /\ value_of args flag (cli_mode o))
  /\ cli_hue o <> 0 /\ cli_mode o <> EmptyString
  /\ ((forall flag v, flag = "--hue"%string \/ flag = "-h"%string ->
         value_of args flag v -> parseInt v = None \/ parseInt v = Some 0) ->
      cli_hue o = 220)
  /\ ((forall flag v, flag = "--mode"%string \/ flag = "-m"%string ->
         value_of args flag v -> v = EmptyString) ->
      cli_mode o = "split-complementary"%string).
Proof.
  intros Hrun.
  pose proof (parse_args_invariant args cli_defaults o) as [Hh Hm];
    [discriminate|discriminate|exact Hrun|].
  assert (Hhue : cli_hue o = 220
                 \/ exists flag v,
                      (flag = "--hue"%string \/ flag = "-h"%string)
                      /\ value_of args flag v
                      /\ parseInt v = Some (cli_hue o)).
  { destruct (parse_args_hue _ _ _ Hrun) as [H|[H|(flag & v & Hf & Hv & Hp & _)]];
      [left; exact H|left; exact H|right; eauto]. }
  assert (Hmode : cli_mode o = "split-complementary"%string
                  \/ exists flag,
                       (flag = "--mode"%string \/ flag = "-m"%string)
                       /\ value_of args flag (cli_mode o)).
  { destruct (parse_args_mode _ _ _ Hrun) as [H|[H|(flag & Hf & Hv & _)]];
      [left; exact H|left; exact H|right; eauto]. }
  repeat split; try assumption.
  - intros Hall. destruct Hhue as [H|(flag & v & Hf & Hv & Hp)]; [exact H|].
    destruct (Hall _ _ Hf Hv) as [Hn|Hn]; congruence.
  - intros Hall. destruct Hmode as [H|(flag & Hf & Hv)]; [exact H|].
    specialize (Hall _ _ Hf Hv). contradiction.
Qed.

(** Membership in a longer argument list. *)
Ltac in_args :=
  repeat match goal with
         | H : _ \/ _ |- _ => destruct H
         | H : bool_decide _ = true |- _ => apply bool_decide_eq_true in H
         end;
  subst; rewrite ?elem_of_cons; tauto.

Lemma parse_args_exit (args : list string) (o0 : CliOptions) (code : Z) :
  parse_args args o0 = Exit code -> code = 0 /\ "--help"%string ∈ args.
Proof.
  functional induction (parse_args args o0); intros Hrun; try discriminate.
  all: try match goal with
           | IH : _ = Exit _ -> _ |- _ =>
               destruct (IH Hrun) as [Hc Hin]; split; [exact Hc|in_args]
           end.
  injection Hrun as <-. split; [reflexivity|in_args].
Qed.

Lemma parse_args_dark (args : list string) (o0 o : CliOptions) :
  parse_args args o0 = Parsed o -> cli_isDark o = true ->
  cli_isDark o0 = true \/ "--dark"%string ∈ args \/ "-d"%string ∈ args.
Proof.
  revert o. functional induction (parse_args args o0); intros o' Hrun Hdark.
  all: try (injection Hrun as <-); try discriminate.
  all: try match goal with
           | IH : forall o, _ = Parsed o -> _ |- _ =>
               specialize (IH _ Hrun Hdark); cbn [cli_isDark] in IH
           end.
  all: try (left; exact Hdark).
  all: in_args.
Qed.

Lemma parse_args_format (args : list string) (o0 o : CliOptions) :
  parse_args args o0 = Parsed o ->
  cli_outputFormat o = cli_outputFormat o0
  \/ (cli_outputFormat o = json /\ "--json"%string ∈ args)
  \/ (cli_outputFormat o = css /\ "--css"%string ∈ args).
Proof.
  revert o. functional induction (parse_args args o0); intros o' Hrun.
  all: try (injection Hrun as <-); try discriminate.
  all: try match goal with
           | IH : forall o, _ = Parsed o -> _ |- _ =>
               specialize (IH _ Hrun); cbn [cli_outputFormat] in IH
           end.
  all: try (left; reflexivity).
  all: repeat match goal with
              | H : bool_decide _ = true |- _ => apply bool_decide_eq_true in H
              end; subst; rewrite ?elem_of_cons; try tauto.
Qed.

Lemma parse_args_mode_kept (args : list string) (o0 o : CliOptions) :
  "--mode"%string ∉ args -> "-m"%string ∉ args ->
  parse_args args o0 = Parsed o -> cli_mode o = cli_mode o0.
Proof.
  revert o. functional induction (parse_args args o0); intros o' H1 H2 Hrun.
  all: try (injection Hrun as <-); try discriminate; try reflexivity.
  all: rewrite ?not_elem_of_cons in H1, H2.
  all: try match goal with
           | IH : forall o, _ -> _ -> _ = Parsed o -> _ |- _ =>
               rewrite (IH _ ltac:(tauto) ltac:(tauto) Hrun); reflexivity
           end.
  all: repeat match goal with
              | H : bool_decide _ = true |- _ => apply bool_decide_eq_true in H
              end; intuition congruence.
Qed.

(** X11.  What the loop over the arguments sets comes from the arguments:
    it exits only with code 0 and only when [--help] is among them; the
    dark theme is on only when [--dark] or [-d] is among them, and the
    output format is [json] or [css] only when [--json] or [--css] is. *)
Theorem parse_args_flags_sound (args : list string) :
  match parse_args args cli_defaults with
  | Exit code => code = 0 /\ "--help"%string ∈ args
  | Parsed o =>
      (cli_isDark o = true -> "--dark"%string ∈ args \/ "-d"%string ∈ args)
      /\ (cli_outputFormat o = json -> "--json"%string ∈ args)
      /\ (cli_outputFormat o = css -> "--css"%string ∈ args)
  end.
Proof.
  destruct (parse_args args cli_defaults) as [o|code] eqn:Hrun.
  - split; [|split].
    + intros Hdark. destruct (parse_args_dark _ _ _ Hrun Hdark) as [H|H];
        [discriminate|exact H].
    + intros Hfmt. destruct (parse_args_format _ _ _ Hrun) as [H|[[_ H]|[H _]]];
        [rewrite Hfmt in H; discriminate|exact H|congruence].
    + intros Hfmt. destruct (parse_args_format _ _ _ Hrun) as [H|[[H _]|[_ H]]];
        [rewrite Hfmt in H; discriminate|congruence|exact H].
  - apply (parse_args_exit _ _ _ Hrun).
Qed.

(** X12.  [main] ends in an uncaught exception only when a mode was given
    on the command line: the exception is the [TypeError] of
    [generatePalette] on a mode that is none of the four, and [--mode] or
    [-m] is among the arguments. *)
Theorem main_palette_throws_only_on_mode (args : list string) (e : exn) :
  main_palette args = Thrown e ->
  e = TypeError "palette"
  /\ ("--mode"%string ∈ args \/ "-m"%string ∈ args)
  /\ exists o, parse_args args cli_defaults = Parsed o
               /\ HarmonyMode_of_string (cli_mode o) = None.
Proof.
  unfold main_palette, generatePalette_js.
  destruct (parse_args args cli_defaults) as [o|code] eqn:Hrun; [|discriminate].
  destruct (HarmonyMode_of_string (cli_mode o)) as [m|] eqn:Hmode; [discriminate|].
  intros [= <-]. split; [reflexivity|]. split; [|eauto].
  destruct (decide ("--mode"%string ∈ args)) as [|H1]; [auto|].
  destruct (decide ("-m"%string ∈ args)) as [|H2]; [auto|].
  rewrite (parse_args_mode_kept _ _ _ H1 H2 Hrun) in Hmode. discriminate.
Qed.

End GeneratorMainFacts.

(** X10 on [--hue 0 --dark]: the hue passed on is 220. *)
Lemma parse_args_never_zero_hue_witness :
  @parse_args decimal_parseInt ["--hue"; "0"; "--dark"]%string cli_defaults
  = Parsed {| cli_hue := 220; cli_mode := "split-complementary";
              cli_isDark := true; cli_outputFormat := preview |}
  /\ 220 <> 0.
Proof.
  assert (H : @parse_args decimal_parseInt ["--hue"; "0"; "--dark"]%string cli_defaults
              = Parsed {| cli_hue := 220; cli_mode := "split-complementary";
                          cli_isDark := true; cli_outputFormat := preview |})
    by (vm_compute; reflexivity).
  split; [exact H|].
  exact (proj1 (proj2 (proj2 (@parse_args_never_zero_hue decimal_parseInt _ _ H)))).
Defined.

(** X12 on [--mode Triadic]: the names of the modes are in lower case. *)
Lemma main_palette_throws_only_on_mode_witness :
  @main_palette flat_chroma decimal_parseInt ["--mode"; "Triadic"]%string
  = Thrown (TypeError "palette")
  /\ ("--mode"%string ∈ ["--mode"; "Triadic"]%string
      \/ "-m"%string ∈ ["--mode"; "Triadic"]%string).
Proof.
  assert (H : @main_palette flat_chroma decimal_parseInt ["--mode"; "Triadic"]%string
              = Thrown (TypeError "palette")) by (vm_compute; reflexivity).
  split; [exact H|].
  exact (proj1 (proj2 (@main_palette_throws_only_on_mode flat_chroma decimal_parseInt
                         _ _ H))).
Defined.

(** An argument that follows [--hue] is its value, whatever it is: here
    [--dark] is read as a hue, gives 220, and the theme stays light. *)
Example parse_args_consumes_value :
  @parse_args decimal_parseInt ["--hue"; "--dark"]%string cli_defaults = Parsed cli_defaults.
Proof. vm_compute. reflexivity. Qed.


(** ** The validator, rule group by rule group *)

(** *** More of the document *)

Definition stated_contrast_of (dna : DesignDNA) : option Qc :=
  ((primitives dna ≫= color) ≫= contrastRatios) ≫= textOnBackground.

Definition heading_of (dna : DesignDNA) : option (list string) :=
  ((primitives dna ≫= typography) ≫= families) ≫= heading.

Definition springs_of (dna : DesignDNA) : option (gmap string Spring) :=
  (primitives dna ≫= motion) ≫= springs.

(** The key looked up in [springs]: [defaultSpring], as a property name. *)
Definition defaultSpring_key (dna : DesignDNA) : string :=
  default "undefined"%string ((primitives dna ≫= motion) ≫= defaultSpring).

Definition reducedMotion_of (dna : DesignDNA) : option string :=
  (primitives dna ≫= motion) ≫= reducedMotion.

Definition borderRadius_of (dna : DesignDNA) : option (gmap string string) :=
  (primitives dna ≫= geometry) ≫= borderRadius.

Definition spacing_base_of (dna : DesignDNA) : option Qc :=
  ((primitives dna ≫= geometry) ≫= spacing) ≫= spacing_base.

Definition personality_of (dna : DesignDNA) : option (list string) :=
  meta dna ≫= personality.

Definition antiPatterns_of (dna : DesignDNA) : option (list string) :=
  meta dna ≫= antiPatterns.

Definition noise_of (dna : DesignDNA) : option Noise :=
  generative dna ≫= noise.

(** The names that a lookup [springs[name]] finds on every object, listed
    or not: the document model has the listed entries only, so the
    default spring rule is stated for the other names. *)
Definition inherited_names : list string :=
  ["constructor"; "toString"; "toLocaleString"; "valueOf"; "hasOwnProperty";
   "isPrototypeOf"; "propertyIsEnumerable"; "__proto__"; "__defineGetter__";
   "__defineSetter__"; "__lookupGetter__"; "__lookupSetter__"]%string.

(** A string of ASCII characters only: on such a string [toLowerCase]
    is the one of JavaScript, which also maps letters outside ASCII (the
    Kelvin sign to [k], for one). *)
Fixpoint ascii_only (s : string) : bool :=
  match s with
  | EmptyString => true
  | String a s' => bool_decide (nat_of_ascii a < 128)%nat && ascii_only s'
  end.

(** The first heading font and the first body font, as written. *)
Definition first_fonts (dna : DesignDNA) : list string :=
  option_list (((((primitives dna ≫= typography) ≫= families) ≫= heading) ≫= head))
  ++ option_list (((((primitives dna ≫= typography) ≫= families) ≫= body) ≫= head)).

(** *** The messages *)

Definition contrast_error_message {fmt : NumberFormat} (calculated : Qc) : string :=
  "Text contrast ratio (" +:+ toFixed calculated 2 +:+ ") fails WCAG AA (needs 4.5+)".

Definition contrast_drift_warning {fmt : NumberFormat}
    (stated : option Qc) (calculated : Qc) : string :=
  "Stated contrast (" +:+ number_to_string stated +:+ ") differs from calculated ("
  +:+ toFixed calculated 2 +:+ ")".

Definition ratio_message : string := "Typography must define a modular scale ratio".
Definition fallback_warning : string := "Heading font stack should include fallbacks".
Definition springs_message : string := "Motion must define spring physics (not just easing)".

Definition reducedMotion_warning : string :=
  "Consider setting reducedMotion to " +:+ dquote +:+ "respectSystem"
  +:+ dquote +:+ " for accessibility".

Definition default_spring_message (key : string) : string :=
  "Default spring " +:+ dquote +:+ key +:+ dquote +:+ " not found in springs".

Definition radius_warning : string := "Border radius should vary by component type".
Definition spacing_message : string := "Spacing must define a base unit".

Definition generic_warning (words : list string) : string :=
  "Generic personality words detected: " +:+ String.concat ", " words.

Definition antiPatterns_message : string := "Must define at least one anti-pattern to avoid".
Definition noise_message : string := "Generative noise configuration is required".
Definition seed_message : string := "Generative noise must include a deterministic seed".

Definition layoutJitter_message : string :=
  "Generative noise must include layoutJitter settings".

(** *** What each rule group tests *)

(** The messages of a rule that fired. *)
Definition fired (b : bool) (msg : string) : list string := if b then [msg] else [].

Definition model_is_wrong (dna : DesignDNA) : bool :=
  bool_decide (model_of dna <> Some "oklch"%string).

(** The contrast that the color rules compute, when the palette has both
    a text and a background color. *)
Definition calculated_contrast {chroma : ChromaJs} (dna : DesignDNA) : option Qc :=
  match palette_color "text" dna, palette_color "background" dna with
  | Some textColor, Some bgColor => Some (getContrastRatio textColor bgColor)
  | _, _ => None
  end.

Definition heading_is_banned (dna : DesignDNA) : bool := is_banned (headingFont_of dna).

(** The body font is banned and is not exactly [inter]. *)
Definition body_is_banned (dna : DesignDNA) : bool :=
  is_banned (bodyFont_of dna) && bool_decide (bodyFont_of dna <> Some "inter"%string).

Definition ratio_is_missing (dna : DesignDNA) : bool := falsy_number (ratio_of dna).

Definition no_fallback (dna : DesignDNA) : bool :=
  bool_decide (length (default [] (heading_of dna)) < 2)%nat.

Definition springs_are_missing (dna : DesignDNA) : bool :=
  match springs_of dna with
  | None => true
  | Some springs => bool_decide (size springs = 0%nat)
  end.

Definition motion_not_respected (dna : DesignDNA) : bool :=
  bool_decide (reducedMotion_of dna <> Some "respectSystem"%string).

Definition default_spring_is_missing (dna : DesignDNA) : bool :=
  falsy_object (springs_of dna ≫= (fun springs => springs !! defaultSpring_key dna)).

(** The radii that count: the values of [borderRadius] other than [0px]
    and [9999px], as a set. *)
Definition uniqueRadii_of (dna : DesignDNA) : gset string :=
  list_to_set
    (filter (fun v => v <> "0px"%string /\ v <> "9999px"%string)
       (map_to_list (default ∅ (borderRadius_of dna))).*2).

Definition radii_are_few (dna : DesignDNA) : bool :=
  bool_decide (size (uniqueRadii_of dna) < 2)%nat.

Definition spacing_base_is_missing (dna : DesignDNA) : bool :=
  falsy_number (spacing_base_of dna).

Definition genericPersonality_of (dna : DesignDNA) : list string :=
  filter (fun p => toLowerCase p ∈ GENERIC_PERSONALITY_WORDS) (default [] (personality_of dna)).

Definition personality_is_generic (dna : DesignDNA) : bool :=
  bool_decide (0 < length (genericPersonality_of dna))%nat.

Definition antiPatterns_are_empty (dna : DesignDNA) : bool :=
  bool_decide (length (default [] (antiPatterns_of dna)) = 0%nat).

Definition noise_errors (dna : DesignDNA) : list string :=
  match noise_of dna with
  | None => [noise_message]
  | Some noise =>
      fired (falsy_string (seed noise)) seed_message
      ++ fired (falsy_object (layoutJitter noise)) layoutJitter_message
  end.

Definition noise_is_incomplete (dna : DesignDNA) : bool :=
  match noise_of dna with
  | None => true
  | Some noise => falsy_string (seed noise) || falsy_object (layoutJitter noise)
  end.

(** *** The score, the errors and the warnings of each rule group *)

Section Readings.
Context {chroma : ChromaJs} {fmt : NumberFormat}.

Definition color_score (dna : DesignDNA) : Z :=
  match calculated_contrast dna with
  | Some calculated =>
      if bool_decide (num 7 <= calculated)%Qc then 4
      else if bool_decide (num 4.5 <= calculated)%Qc then 3
      else 1
  | None => if model_is_wrong dna then 1 else 4
  end.

Definition color_errors (dna : DesignDNA) : list string :=
  fired (model_is_wrong dna) color_model_message
  ++ match calculated_contrast dna with
     | Some calculated =>
         fired (bool_decide (calculated < num 4.5)%Qc) (contrast_error_message calculated)
     | None => []
     end.

Definition color_warnings (dna : DesignDNA) : list string :=
  match calculated_contrast dna with
  | Some calculated =>
      fired (negb (bool_decide (calculated < num 4.5)%Qc)
             && contrast_drifts calculated (stated_contrast_of dna))
        (contrast_drift_warning (stated_contrast_of dna) calculated)
  | None => []
  end.

Definition typography_score (dna : DesignDNA) : Z :=
  if heading_is_banned dna || ratio_is_missing dna then 1
  else if body_is_banned dna then 2 else 4.

Definition typography_errors (dna : DesignDNA) : list string :=
  fired (heading_is_banned dna) (heading_font_message (headingFont_of dna))
  ++ fired (body_is_banned dna) (body_font_message (bodyFont_of dna))
  ++ fired (ratio_is_missing dna) ratio_message.

Definition typography_warnings (dna : DesignDNA) : list string :=
  fired (no_fallback dna) fallback_warning.

Definition motion_score (dna : DesignDNA) : Z :=
  Z.min (Z.min (if springs_are_missing dna then 1 else 4)
               (if motion_not_respected dna then 3 else 4))
        (if default_spring_is_missing dna then 2 else 4).

Definition motion_errors (dna : DesignDNA) : list string :=
  fired (springs_are_missing dna) springs_message
  ++ fired (default_spring_is_missing dna) (default_spring_message (defaultSpring_key dna)).

Definition motion_warnings (dna : DesignDNA) : list string :=
  fired (motion_not_respected dna) reducedMotion_warning.

Definition geometry_score (dna : DesignDNA) : Z :=
  Z.min (if radii_are_few dna then 3 else 4) (if spacing_base_is_missing dna then 2 else 4).

Definition geometry_errors (dna : DesignDNA) : list string :=
  fired (spacing_base_is_missing dna) spacing_message.

Definition geometry_warnings (dna : DesignDNA) : list string :=
  fired (radii_are_few dna) radius_warning.

Definition uniqueness_score (dna : DesignDNA) : Z :=
  if personality_is_generic dna || antiPatterns_are_empty dna || noise_is_incomplete dna
  then 2 else 4.

Definition uniqueness_errors (dna : DesignDNA) : list string :=
  fired (antiPatterns_are_empty dna) antiPatterns_message ++ noise_errors dna.

Definition uniqueness_warnings (dna : DesignDNA) : list string :=
  fired (personality_is_generic dna) (generic_warning (genericPersonality_of dna)).

Definition all_errors (dna : DesignDNA) : list string :=
  color_errors dna ++ typography_errors dna ++ motion_errors dna
  ++ geometry_errors dna ++ uniqueness_errors dna.

Definition all_warnings (dna : DesignDNA) : list string :=
  color_warnings dna ++ typography_warnings dna ++ motion_warnings dna
  ++ geometry_warnings dna ++ uniqueness_warnings dna.

End Readings.

(** *** Inversion with both message lists *)

Lemma push_warning_inv2 msg s u s' :
  push_warning msg s = Return (u, s') ->
  log_errors s' = log_errors s /\ log_warnings s' = log_warnings s ++ [msg].
Proof. unfold push_warning. intros [= _ <-]. auto. Qed.

Lemma push_error_inv2 msg s u s' :
  push_error msg s = Return (u, s') ->
  log_errors s' = log_errors s ++ [msg] /\ log_warnings s' = log_warnings s.
Proof. unfold push_error. intros [= _ <-]. auto. Qed.

Ltac inv_both_step :=
  match goal with
  | H : bind _ _ _ = Return _ |- _ =>
      apply bind_inv in H; destruct H as (? & ? & ? & H); cbv beta in H
  | H : ret _ _ = Return _ |- _ =>
      apply ret_inv in H; destruct H as [? ?]; subst
  | H : prop_of _ _ _ = Return _ |- _ =>
      apply prop_of_inv in H; destruct H as [? ?]; subst
  | H : when ?b _ _ = Return _ |- _ =>
      destruct b eqn:?; cbn [when] in H
  | H : (if ?b then _ else _) _ = Return _ |- _ =>
      destruct b eqn:?
  | H : match ?x with Some _ => _ | None => _ end _ = Return _ |- _ =>
      destruct x eqn:?
  | H : push_error _ _ = Return _ |- _ =>
      apply push_error_inv2 in H; destruct H as [? ?]
  | H : push_warning _ _ = Return _ |- _ =>
      apply push_warning_inv2 in H; destruct H as [? ?]
  end.

Ltac inv_both := repeat inv_both_step.

Ltac chain_both :=
  repeat match goal with
         | H : log_errors ?a = _ |- context [log_errors ?a] => rewrite H
         | H : log_warnings ?a = _ |- context [log_warnings ?a] => rewrite H
         end.

Ltac read_document :=
  unfold model_is_wrong, calculated_contrast, heading_is_banned, body_is_banned,
    ratio_is_missing, no_fallback, springs_are_missing, motion_not_respected,
    default_spring_is_missing, radii_are_few, uniqueRadii_of, spacing_base_is_missing,
    personality_is_generic, genericPersonality_of, antiPatterns_are_empty, noise_errors,
    noise_is_incomplete,
    stated_contrast_of, heading_of, springs_of, defaultSpring_key, reducedMotion_of,
    borderRadius_of, spacing_base_of, personality_of, antiPatterns_of, noise_of,
    model_of, palette_color, headingFont_of, bodyFont_of, ratio_of;
  repeat (match goal with
          | H : ?f ?x = Some _ |- context [?f ?x] => rewrite H
          | H : ?f ?x = None |- context [?f ?x] => rewrite H
          end;
          cbn [mbind option_bind fmap option_fmap option_map]);
  cbn [default from_option id] in *.

Ltac lists_agree :=
  chain_both; cbn [fired app]; rewrite <- ?app_assoc; cbn [fired app];
  rewrite ?app_nil_r; reflexivity.

Section ValidatorReading.
Context {chroma : ChromaJs} {fmt : NumberFormat}.

Lemma validate_typography_reading dna s score s' :
  validate_typography dna s = Return (score, s') ->
  score = typography_score dna
  /\ log_errors s' = log_errors s ++ typography_errors dna
  /\ log_warnings s' = log_warnings s ++ typography_warnings dna.
Proof.
  unfold validate_typography, typography_score, typography_errors, typography_warnings.
  cbv zeta. intros H.
  inv_both; read_document; use_tests; cbn [andb orb].
  all: split; [reflexivity|split; lists_agree].
Qed.

Lemma validate_color_reading dna s score s' :
  validate_color dna s = Return (score, s') ->
  score = color_score dna
  /\ log_errors s' = log_errors s ++ color_errors dna
  /\ log_warnings s' = log_warnings s ++ color_warnings dna.
Proof.
  unfold validate_color, color_score, color_errors, color_warnings.
  cbv zeta. intros H.
  inv_both; read_document; use_tests; cbn [andb orb negb].
  all: split; [|split; lists_agree].
  all: try reflexivity.
  all: repeat match goal with
              | H : bool_decide _ = false |- _ => apply bool_decide_eq_false in H
              end.
  all: exfalso; eauto using Qcnot_lt_le.
Qed.

Lemma validate_motion_reading dna s score s' :
  validate_motion dna s = Return (score, s') ->
  score = motion_score dna
  /\ log_errors s' = log_errors s ++ motion_errors dna
  /\ log_warnings s' = log_warnings s ++ motion_warnings dna.
Proof.
  unfold validate_motion, motion_score, motion_errors, motion_warnings.
  cbv zeta. intros H.
  inv_both; read_document; use_tests.
  all: split; [reflexivity|split; lists_agree].
Qed.

Lemma validate_geometry_reading dna s score s' :
  validate_geometry dna s = Return (score, s') ->
  score = geometry_score dna
  /\ log_errors s' = log_errors s ++ geometry_errors dna
  /\ log_warnings s' = log_warnings s ++ geometry_warnings dna.
Proof.
  unfold validate_geometry, geometry_score, geometry_errors, geometry_warnings.
  cbv zeta. intros H.
  inv_both; read_document; use_tests.
  all: split; [reflexivity|split; lists_agree].
Qed.

Lemma validate_uniqueness_reading dna s score s' :
  validate_uniqueness dna s = Return (score, s') ->
  score = uniqueness_score dna
  /\ log_errors s' = log_errors s ++ uniqueness_errors dna
  /\ log_warnings s' = log_warnings s ++ uniqueness_warnings dna.
Proof.
  unfold validate_uniqueness, uniqueness_score, uniqueness_errors, uniqueness_warnings.
  cbv zeta. intros H.
  inv_both; read_document; use_tests; cbn [andb orb].
  all: split; [reflexivity|split; lists_agree].
Qed.

End ValidatorReading.

(** ** Further properties of the validator *)

Section ValidatorFurther.
Context {chroma : ChromaJs} {fmt : NumberFormat}.

(** The report of the validator, read off the document. *)
Definition report_of (dna : DesignDNA) : ValidationResult :=
  let scores :=
    {| colorSystem := color_score dna;
       typographySystem := typography_score dna;
       motionSystem := motion_score dna;
       geometricSystem := geometry_score dna;
       uniqueness := uniqueness_score dna;
       technicalValidity := if bool_decide (length (all_errors dna) = 0%nat) then 4 else 2 |} in
  {| valid := bool_decide (3 <= Math_min (Object_values scores))
              && bool_decide (length (all_errors dna) = 0%nat);
     errors := all_errors dna;
     warnings := all_warnings dna;
     scores := scores |}.

Lemma validateDesignDNA_reading (dna : DesignDNA) (r : ValidationResult) :
  validateDesignDNA dna = Return r -> r = report_of dna.
Proof.
  intros H. apply validateDesignDNA_inv in H.
  destruct H as (s1 & s2 & s3 & s4 & s5 & H1 & H2 & H3 & H4 & H5 & He & Hw & Ht & Hv).
  apply validate_color_reading in H1 as (Hc1 & Hc2 & Hc3).
  apply validate_typography_reading in H2 as (Ht1 & Ht2 & Ht3).
  apply validate_motion_reading in H3 as (Hm1 & Hm2 & Hm3).
  apply validate_geometry_reading in H4 as (Hg1 & Hg2 & Hg3).
  apply validate_uniqueness_reading in H5 as (Hu1 & Hu2 & Hu3).
  cbn [log_errors log_warnings app] in Hc2, Hc3.
  assert (Herr : errors r = all_errors dna).
  { rewrite He, Hu2, Hg2, Hm2, Ht2, Hc2. unfold all_errors.
    rewrite <- !app_assoc. reflexivity. }
  assert (Hwarn : warnings r = all_warnings dna).
  { rewrite Hw, Hu3, Hg3, Hm3, Ht3, Hc3. unfold all_warnings.
    rewrite <- !app_assoc. reflexivity. }
  destruct r as [v e w [sc st sm sg su stv]].
  cbn [scores errors warnings valid colorSystem typographySystem motionSystem
         geometricSystem uniqueness technicalValidity] in *.
  unfold report_of. subst. rewrite ?Herr, ?Hwarn. reflexivity.
Qed.

(** X13.  The validator is a table of independent rules.  It throws when
    the document lacks an object it dereferences; otherwise its report
    is the one read off the document: each of the five scores is fixed
    by the tests of its own group, and the errors and the warnings are
    those of the groups in the order color, typography, motion,
    geometry, uniqueness.  This is stated where the document model and
    JavaScript agree: [defaultSpring] is not a name that every object
    inherits, and the personality keywords and the first heading and
    body font are ASCII. *)
Theorem validateDesignDNA_is_rule_table (dna : DesignDNA) :
  defaultSpring_key dna ∉ inherited_names ->
  Forall (fun p => ascii_only p = true) (default [] (personality_of dna)) ->
  Forall (fun font => ascii_only font = true) (first_fonts dna) ->
  if reads_ok dna
  then validateDesignDNA dna = Return (report_of dna)
  else exists e, validateDesignDNA dna = Throw e.
Proof.
  intros _ _ _. destruct (reads_ok dna) eqn:Hok.
  - apply validateDesignDNA_returns_iff in Hok as [r Hr].
    rewrite Hr. f_equal. apply validateDesignDNA_reading. exact Hr.
  - destruct (validateDesignDNA dna) as [r|e] eqn:Hr; [|eauto].
    assert (Hyes : reads_ok dna = true) by (apply validateDesignDNA_returns_iff; eauto).
    congruence.
Qed.

End ValidatorFurther.

(** *** Helper facts *)

Lemma elem_of_fired (x : string) (b : bool) (msg : string) :
  x ∈ fired b msg <-> b = true /\ x = msg.
Proof.
  destruct b; cbn [fired].
  - rewrite list_elem_of_singleton. tauto.
  - split; [intros H; inversion H|intros [H _]; discriminate].
Qed.

Lemma fired_nil (b : bool) (msg : string) : fired b msg = [] <-> b = false.
Proof. destruct b; cbn [fired]; split; intros H; congruence. Qed.

Lemma prefix_append (p s : string) : String.prefix p (p +:+ s) = true.
Proof.
  induction p as [|a p IH]; simpl; [destruct s; reflexivity|].
  destruct (ascii_dec a a); [exact IH|congruence].
Qed.

Lemma includes_infix (pre p post : string) : includes (pre +:+ p +:+ post) p = true.
Proof.
  induction pre as [|a pre IH].
  - change (EmptyString +:+ p +:+ post) with (p +:+ post).
    pose proof (prefix_append p post) as Hp.
    destruct (p +:+ post); cbn [includes]; rewrite Hp; reflexivity.
  - change (String a pre +:+ p +:+ post) with (String a (pre +:+ p +:+ post)).
    cbn [includes]. rewrite IH. apply orb_true_r.
Qed.

(** A font name that contains a banned name is banned. *)
Lemma is_banned_infix (pre banned post : string) :
  banned ∈ BANNED_FONTS -> is_banned (Some (pre +:+ banned +:+ post)) = true.
Proof.
  intros Hin. unfold is_banned. apply existsb_exists. exists banned.
  split; [apply list_elem_of_In; exact Hin|apply includes_infix].
Qed.

Lemma filter_nil_Forall {A} (P : A -> Prop) `{forall x, Decision (P x)} (l : list A) :
  filter P l = [] <-> Forall (fun x => ~ P x) l.
Proof.
  induction l as [|x l IH].
  - split; [constructor|reflexivity].
  - rewrite filter_cons. destruct (decide (P x)) as [Hx|Hx].
    + split; [discriminate|]. intros HF. inversion HF; subst. contradiction.
    + rewrite IH. split; [intros HF; constructor; assumption|].
      intros HF. inversion HF; subst. assumption.
Qed.

Section ValidatorUse.
Context {chroma : ChromaJs} {fmt : NumberFormat}.

Lemma color_score_range dna : color_score dna = 1 \/ color_score dna = 3 \/ color_score dna = 4.
Proof.
  unfold color_score. destruct (calculated_contrast dna);
    repeat case_bool_decide; try destruct (model_is_wrong dna); auto.
Qed.

(** X14.  Every score of a report lies between 1 and 4, and the color
    score is never 2.  The technical score is 4 when there is no error
    and 2 otherwise, so that a report with an error is never valid. *)
Theorem scores_in_range (dna : DesignDNA) (r : ValidationResult) :
  validateDesignDNA dna = Return r ->
  Forall (fun x => 1 <= x <= 4) (Object_values (scores r))
  /\ colorSystem (scores r) <> 2
  /\ (technicalValidity (scores r) = 4 <-> errors r = [])
  /\ (errors r <> [] -> technicalValidity (scores r) = 2 /\ valid r = false).
Proof.
  intros H. rewrite (validateDesignDNA_reading _ _ H).
  unfold report_of. cbv zeta. cbn [scores errors valid technicalValidity colorSystem].
  assert (Hlen : bool_decide (length (all_errors dna) = 0%nat) = true <-> all_errors dna = [])
    by (rewrite bool_decide_eq_true; apply length_zero_iff_nil).
  split; [|split; [|split]].
  - unfold Object_values.
    cbn [colorSystem typographySystem motionSystem geometricSystem uniqueness
           technicalValidity].
    pose proof (color_score_range dna) as Hc.
    unfold typography_score, motion_score, geometry_score, uniqueness_score.
    repeat constructor;
      repeat match goal with
             | |- context [if ?b then _ else _] => destruct b
             end; lia.
  - pose proof (color_score_range dna). lia.
  - destruct (bool_decide (length (all_errors dna) = 0%nat)) eqn:E.
    + split; [intros _; apply Hlen; reflexivity|reflexivity].
    + split; [discriminate|]. intros Hnil. apply Hlen in Hnil. congruence.
  - intros Hne. destruct (bool_decide (length (all_errors dna) = 0%nat)) eqn:E.
    + exfalso. apply Hne, Hlen. reflexivity.
    + split; [reflexivity|apply andb_false_r].
Qed.

Lemma color_errors_nil dna : color_errors dna = [] -> 3 <= color_score dna.
Proof.
  unfold color_errors, color_score. rewrite app_nil, fired_nil. intros [Hm Hc].
  rewrite Hm. destruct (calculated_contrast dna) as [calc|]; [|lia].
  apply fired_nil, bool_decide_eq_false, Qcnot_lt_le in Hc.
  rewrite (bool_decide_eq_true_2 _ Hc). case_bool_decide; lia.
Qed.

Lemma typography_errors_nil dna : typography_errors dna = [] -> typography_score dna = 4.
Proof.
  unfold typography_errors, typography_score. rewrite !app_nil, !fired_nil.
  intros (-> & -> & ->). reflexivity.
Qed.

Lemma motion_errors_nil dna : motion_errors dna = [] -> 3 <= motion_score dna.
Proof.
  unfold motion_errors, motion_score. rewrite !app_nil, !fired_nil.
  intros (-> & ->). destruct (motion_not_respected dna); lia.
Qed.

Lemma geometry_errors_nil dna : geometry_errors dna = [] -> 3 <= geometry_score dna.
Proof.
  unfold geometry_errors, geometry_score. rewrite !fired_nil.
  intros ->. destruct (radii_are_few dna); lia.
Qed.

Lemma uniqueness_errors_nil dna :
  uniqueness_errors dna = [] ->
  uniqueness_score dna = if personality_is_generic dna then 2 else 4.
Proof.
  unfold uniqueness_errors, uniqueness_score, noise_errors, noise_is_incomplete.
  rewrite app_nil, fired_nil. intros [-> Hn].
  destruct (noise_of dna) as [n|]; [|discriminate].
  rewrite app_nil, !fired_nil in Hn. destruct Hn as [-> ->].
  destruct (personality_is_generic dna); reflexivity.
Qed.

Lemma personality_is_generic_false dna :
  personality_is_generic dna = false
  <-> Forall (fun p => toLowerCase p ∉ GENERIC_PERSONALITY_WORDS)
        (default [] (personality_of dna)).
Proof.
  unfold personality_is_generic, genericPersonality_of.
  pose proof (filter_nil_Forall (fun p => toLowerCase p ∈ GENERIC_PERSONALITY_WORDS)
                (default [] (personality_of dna))) as HF.
  rewrite bool_decide_eq_false, <- HF. clear HF.
  generalize (filter (fun p => toLowerCase p ∈ GENERIC_PERSONALITY_WORDS)
                (default [] (personality_of dna))).
  intros [|x g]; cbn [length]; split; intros H;
    [reflexivity|lia|exfalso; apply H; lia|discriminate].
Qed.

(** X15.  For personality keywords in ASCII, a report is valid exactly
    when it has no error and no keyword is, in lower case, one of the
    generic words: a generic keyword is the only way a document without
    errors fails, and no other warning costs the verdict. *)
Theorem valid_iff_no_error_no_generic (dna : DesignDNA) (r : ValidationResult) :
  validateDesignDNA dna = Return r ->
  Forall (fun p => ascii_only p = true) (default [] (personality_of dna)) ->
  (valid r = true
   <-> errors r = []
       /\ Forall (fun p => toLowerCase p ∉ GENERIC_PERSONALITY_WORDS)
            (default [] (personality_of dna))).
Proof.
  intros H _. rewrite <- personality_is_generic_false.
  rewrite (validateDesignDNA_reading _ _ H).
  unfold report_of. cbv zeta. cbn [valid errors]. split.
  - intros Hv. apply andb_true_iff in Hv as [Hmin Hlen].
    apply bool_decide_eq_true in Hmin, Hlen. apply length_zero_iff_nil in Hlen.
    apply Math_min_ge in Hmin. unfold Object_values in Hmin.
    cbn [colorSystem typographySystem motionSystem geometricSystem uniqueness
           technicalValidity] in Hmin.
    rewrite !Forall_cons in Hmin. destruct Hmin as (_ & _ & _ & _ & Hu & _).
    split; [exact Hlen|].
    unfold all_errors in Hlen. rewrite !app_nil in Hlen.
    destruct Hlen as (_ & _ & _ & _ & Hue).
    rewrite (uniqueness_errors_nil _ Hue) in Hu.
    destruct (personality_is_generic dna); [lia|reflexivity].
  - intros [Hnil Hgen].
    assert (Hlen : bool_decide (length (all_errors dna) = 0%nat) = true)
      by (apply bool_decide_eq_true_2; rewrite Hnil; reflexivity).
    rewrite Hlen, andb_true_r. apply bool_decide_eq_true_2, Math_min_ge.
    unfold Object_values.
    cbn [colorSystem typographySystem motionSystem geometricSystem uniqueness
           technicalValidity].
    unfold all_errors in Hnil. rewrite !app_nil in Hnil.
    destruct Hnil as (Hce & Hte & Hme & Hge & Hue).
    pose proof (color_errors_nil _ Hce). pose proof (motion_errors_nil _ Hme).
    pose proof (geometry_errors_nil _ Hge).
    rewrite (typography_errors_nil _ Hte), (uniqueness_errors_nil _ Hue), Hgen.
    repeat constructor; lia.
Qed.

End ValidatorUse.

Definition body_of (dna : DesignDNA) : option (list string) :=
  ((primitives dna ≫= typography) ≫= families) ≫= body.

Lemma headingFont_of_head (dna : DesignDNA) :
  headingFont_of dna = toLowerCase <$> (heading_of dna ≫= head).
Proof. reflexivity. Qed.

Lemma bodyFont_of_head (dna : DesignDNA) :
  bodyFont_of dna = toLowerCase <$> (body_of dna ≫= head).
Proof. reflexivity. Qed.

(** Unfolding the lists of messages into their members. *)
Ltac members :=
  unfold all_errors, color_errors, typography_errors, motion_errors, geometry_errors,
    uniqueness_errors, noise_errors, all_warnings, color_warnings, typography_warnings,
    motion_warnings, geometry_warnings, uniqueness_warnings;
  repeat match goal with
         | |- context [match ?x with Some _ => _ | None => _ end] => destruct x
         end;
  rewrite ?elem_of_app, ?elem_of_fired, ?elem_of_nil, ?list_elem_of_singleton.

(** Two messages of different rules are different. *)
Ltac distinct_messages :=
  repeat match goal with
         | H : _ /\ _ |- _ => destruct H
         | H : _ \/ _ |- _ => destruct H
         | H : False |- _ => destruct H
         | H : @eq string _ _ |- _ =>
             exfalso;
             unfold color_model_message, heading_font_message, body_font_message,
               contrast_error_message, contrast_drift_warning, ratio_message,
               fallback_warning, springs_message, reducedMotion_warning,
               default_spring_message, radius_warning, spacing_message, generic_warning,
               antiPatterns_message, noise_message, seed_message, layoutJitter_message in H;
             cbn in H; discriminate H
         end.

Section ValidatorRules.
Context {chroma : ChromaJs} {fmt : NumberFormat}.

Lemma report_with_error (dna : DesignDNA) (msg : string) :
  msg ∈ all_errors dna -> valid (report_of dna) = false.
Proof.
  intros Hin. unfold report_of. cbv zeta. cbn [valid].
  destruct (all_errors dna) as [|m l]; [inversion Hin|]. apply andb_false_r.
Qed.

(** X16.  The ban on heading fonts is by substring and blind to case:
    when the first heading font, in lower case, contains one of the
    banned names, the report has the heading error for it, a typography
    score of 1, and is not valid. *)
Theorem banned_heading_fails (dna : DesignDNA) (r : ValidationResult)
    (raw pre banned post : string) :
  validateDesignDNA dna = Return r ->
  heading_of dna ≫= head = Some raw ->
  banned ∈ BANNED_FONTS ->
  toLowerCase raw = pre +:+ banned +:+ post ->
  heading_font_message (Some (toLowerCase raw)) ∈ errors r
  /\ typographySystem (scores r) = 1
  /\ valid r = false.
Proof.
  intros H Hraw Hin Hlow. rewrite (validateDesignDNA_reading _ _ H).
  assert (Hfont : headingFont_of dna = Some (toLowerCase raw))
    by (rewrite headingFont_of_head, Hraw; reflexivity).
  assert (Hban : heading_is_banned dna = true).
  { unfold heading_is_banned. rewrite Hfont, Hlow. apply is_banned_infix. exact Hin. }
  assert (Hmsg : heading_font_message (Some (toLowerCase raw)) ∈ all_errors dna).
  { unfold all_errors, typography_errors. rewrite Hban, Hfont. cbn [fired].
    rewrite !elem_of_app, list_elem_of_singleton. tauto. }
  split; [exact Hmsg|]. split; [|exact (report_with_error _ _ Hmsg)].
  unfold report_of. cbv zeta. cbn [scores typographySystem].
  unfold typography_score. rewrite Hban. reflexivity.
Qed.

(** X17.  Only the exact name [inter] escapes the ban on body fonts: when
    the first body font, in lower case, contains a banned name and is
    not [inter] itself, the report has the body error for it, a
    typography score of at most 2, and is not valid. *)
Theorem banned_body_fails (dna : DesignDNA) (r : ValidationResult)
    (raw pre banned post : string) :
  validateDesignDNA dna = Return r ->
  body_of dna ≫= head = Some raw ->
  banned ∈ BANNED_FONTS ->
  toLowerCase raw = pre +:+ banned +:+ post ->
  toLowerCase raw <> "inter"%string ->
  body_font_message (Some (toLowerCase raw)) ∈ errors r
  /\ typographySystem (scores r) <= 2
  /\ valid r = false.
Proof.
  intros H Hraw Hin Hlow Hne. rewrite (validateDesignDNA_reading _ _ H).
  assert (Hfont : bodyFont_of dna = Some (toLowerCase raw))
    by (rewrite bodyFont_of_head, Hraw; reflexivity).
  assert (Hban : body_is_banned dna = true).
  { unfold body_is_banned. rewrite Hfont. apply andb_true_iff. split.
    - rewrite Hlow. apply is_banned_infix. exact Hin.
    - apply bool_decide_eq_true_2. congruence. }
  assert (Hmsg : body_font_message (Some (toLowerCase raw)) ∈ all_errors dna).
  { unfold all_errors, typography_errors. rewrite Hban, Hfont. cbn [fired].
    rewrite !elem_of_app, list_elem_of_singleton. tauto. }
  split; [exact Hmsg|]. split; [|exact (report_with_error _ _ Hmsg)].
  unfold report_of. cbv zeta. cbn [scores typographySystem].
  unfold typography_score. rewrite Hban.
  destruct (heading_is_banned dna || ratio_is_missing dna); lia.
Qed.

(** X18.  When [springs] has no entry under the name that
    [defaultSpring] gives (a name no object inherits), be it that
    [springs] itself is missing, the report has the error that names the
    default spring, a motion score of at most 2, and is not valid; when
    [springs] is missing or empty the motion score is 1. *)
Theorem missing_default_spring_fails (dna : DesignDNA) (r : ValidationResult) :
  validateDesignDNA dna = Return r ->
  defaultSpring_key dna ∉ inherited_names ->
  springs_of dna ≫= (fun springs => springs !! defaultSpring_key dna) = None ->
  default_spring_message (defaultSpring_key dna) ∈ errors r
  /\ motionSystem (scores r) <= 2
  /\ valid r = false
  /\ ((springs_of dna = None \/ springs_of dna = Some ∅) ->
      springs_message ∈ errors r /\ motionSystem (scores r) = 1).
Proof.
  intros H _ Hkey. rewrite (validateDesignDNA_reading _ _ H).
  assert (Hds : default_spring_is_missing dna = true)
    by (unfold default_spring_is_missing; rewrite Hkey; reflexivity).
  assert (Hmsg : default_spring_message (defaultSpring_key dna) ∈ all_errors dna).
  { unfold all_errors, motion_errors. rewrite Hds. cbn [fired].
    rewrite !elem_of_app, list_elem_of_singleton. tauto. }
  unfold report_of. cbv zeta. cbn [scores errors motionSystem].
  split; [exact Hmsg|]. split; [unfold motion_score; rewrite Hds; lia|].
  split; [exact (report_with_error _ _ Hmsg)|].
  intros Hsp.
  assert (Hmiss : springs_are_missing dna = true).
  { unfold springs_are_missing. destruct Hsp as [->| ->]; [reflexivity|].
    apply bool_decide_eq_true_2. apply map_size_empty. }
  split.
  - unfold all_errors, motion_errors. rewrite Hmiss. cbn [fired].
    rewrite !elem_of_app, list_elem_of_singleton. tauto.
  - unfold motion_score. rewrite Hmiss, Hds.
    destruct (motion_not_respected dna); reflexivity.
Qed.

(** X19.  The spacing error is reported exactly when [spacing.base] is
    missing or zero, and exactly then the geometry score is 2; otherwise
    the score is 3 when fewer than two distinct radii other than [0px]
    and [9999px] are given, and 4 when there are at least two. *)
Theorem spacing_base_rule (dna : DesignDNA) (r : ValidationResult) :
  validateDesignDNA dna = Return r ->
  let missing := spacing_base_of dna = None \/ spacing_base_of dna = Some (num 0) in
  (spacing_message ∈ errors r <-> missing)
  /\ (geometricSystem (scores r) = 2 <-> missing)
  /\ (~ missing ->
      geometricSystem (scores r)
      = if bool_decide (size (uniqueRadii_of dna) < 2)%nat then 3 else 4).
Proof.
  intros H. cbv zeta. rewrite (validateDesignDNA_reading _ _ H).
  unfold report_of. cbv zeta. cbn [scores errors geometricSystem].
  assert (Hmiss : spacing_base_is_missing dna = true
                  <-> spacing_base_of dna = None \/ spacing_base_of dna = Some (num 0)).
  { unfold spacing_base_is_missing, falsy_number.
    destruct (spacing_base_of dna) as [v|]; [|split; auto].
    rewrite bool_decide_eq_true. split; [intros ->; auto|].
    intros [Hn|[= ->]]; [discriminate|reflexivity]. }
  rewrite <- Hmiss. split; [|split].
  - split.
    + members; intros Hin; try tauto; distinct_messages; assumption.
    + intros Hb. unfold all_errors, geometry_errors. rewrite Hb. cbn [fired].
      rewrite !elem_of_app, list_elem_of_singleton. tauto.
  - unfold geometry_score.
    destruct (spacing_base_is_missing dna), (radii_are_few dna); cbn; split;
      intros Hx; try reflexivity; try discriminate; try lia.
  - intros Hn. unfold geometry_score, radii_are_few.
    destruct (spacing_base_is_missing dna); [exfalso; apply Hn; reflexivity|].
    case_bool_decide; reflexivity.
Qed.

End ValidatorRules.

Section ValidatorColorRules.
Context {chroma : ChromaJs} {fmt : NumberFormat}.

(** X20.  When the palette has a text and a background color and their
    calculated contrast is below 4.5, the report has the contrast error
    with that contrast, a color score of 1, no warning about the stated
    contrast, and is not valid: whatever the color model and the stated
    contrast are. *)
Theorem low_contrast_fails (dna : DesignDNA) (r : ValidationResult)
    (textColor bgColor : OKLCHColor) :
  validateDesignDNA dna = Return r ->
  palette_color "text" dna = Some textColor ->
  palette_color "background" dna = Some bgColor ->
  (getContrastRatio textColor bgColor < num 4.5)%Qc ->
  contrast_error_message (getContrastRatio textColor bgColor) ∈ errors r
  /\ colorSystem (scores r) = 1
  /\ valid r = false
  /\ contrast_drift_warning (stated_contrast_of dna) (getContrastRatio textColor bgColor)
     ∉ warnings r.
Proof.
  intros H Ht Hb Hlow. rewrite (validateDesignDNA_reading _ _ H).
  assert (Hc : calculated_contrast dna = Some (getContrastRatio textColor bgColor))
    by (unfold calculated_contrast; rewrite Ht, Hb; reflexivity).
  assert (Hmsg : contrast_error_message (getContrastRatio textColor bgColor) ∈ all_errors dna).
  { unfold all_errors, color_errors. rewrite Hc.
    rewrite (bool_decide_eq_true_2 _ Hlow). cbn [fired].
    rewrite !elem_of_app, list_elem_of_singleton. tauto. }
  unfold report_of. cbv zeta. cbn [scores errors warnings colorSystem].
  split; [exact Hmsg|]. split; [|split; [exact (report_with_error _ _ Hmsg)|]].
  - unfold color_score. rewrite Hc.
    assert (H45 : ~ (num 4.5 <= getContrastRatio textColor bgColor)%Qc)
      by (apply Qclt_not_le; exact Hlow).
    assert (H7 : ~ (num 7 <= getContrastRatio textColor bgColor)%Qc).
    { intros H7. apply H45. eapply Qcle_trans; [|exact H7]. apply Qclt_le_weak.
      reflexivity. }
    rewrite (bool_decide_eq_false_2 _ H7), (bool_decide_eq_false_2 _ H45). reflexivity.
  - unfold all_warnings, color_warnings. rewrite Hc.
    rewrite (bool_decide_eq_true_2 _ Hlow). cbn [negb andb fired app].
    members. intros Hin. distinct_messages.
Qed.

(** X21.  When the palette lacks the text or the background color, the
    contrast is not checked at all: the color score is 4 for the model
    [oklch] and 1 for any other, and the report has neither the contrast
    error nor the warning about the stated contrast, whatever contrast
    the document states. *)
Theorem contrast_check_skipped (dna : DesignDNA) (r : ValidationResult) :
  validateDesignDNA dna = Return r ->
  palette_color "text" dna = None \/ palette_color "background" dna = None ->
  colorSystem (scores r) = (if bool_decide (model_of dna = Some "oklch"%string) then 4 else 1)
  /\ (forall calculated, contrast_error_message calculated ∉ errors r)
  /\ (forall stated calculated, contrast_drift_warning stated calculated ∉ warnings r).
Proof.
  intros H Habs. rewrite (validateDesignDNA_reading _ _ H).
  assert (Hc : calculated_contrast dna = None).
  { unfold calculated_contrast. destruct Habs as [-> | ->]; [reflexivity|].
    destruct (palette_color "text" dna); reflexivity. }
  unfold report_of. cbv zeta. cbn [scores errors warnings colorSystem].
  split; [|split].
  - unfold color_score, model_is_wrong. rewrite Hc.
    repeat case_bool_decide; try reflexivity; contradiction.
  - intros calculated. unfold all_errors, color_errors. rewrite Hc.
    members; intros Hin; distinct_messages.
  - intros stated calculated. unfold all_warnings, color_warnings. rewrite Hc.
    members; intros Hin; distinct_messages.
Qed.

(** X22.  The warnings about the heading font stack, the reduced motion
    setting and the border radii are given exactly when, in turn, the
    heading stack has fewer than two fonts, [reducedMotion] is not
    [respectSystem], and fewer than two distinct radii other than [0px]
    and [9999px] are listed. *)
Theorem warnings_rule (dna : DesignDNA) (r : ValidationResult) :
  validateDesignDNA dna = Return r ->
  (fallback_warning ∈ warnings r <-> (length (default [] (heading_of dna)) < 2)%nat)
  /\ (reducedMotion_warning ∈ warnings r <-> reducedMotion_of dna <> Some "respectSystem"%string)
  /\ (radius_warning ∈ warnings r <-> (size (uniqueRadii_of dna) < 2)%nat).
Proof.
  intros H. rewrite (validateDesignDNA_reading _ _ H).
  unfold report_of. cbv zeta. cbn [warnings].
  rewrite <- (bool_decide_eq_true (length (default [] (heading_of dna)) < 2)%nat).
  rewrite <- (bool_decide_eq_true (reducedMotion_of dna <> Some "respectSystem"%string)).
  rewrite <- (bool_decide_eq_true (size (uniqueRadii_of dna) < 2)%nat).
  fold (no_fallback dna) (motion_not_respected dna) (radii_are_few dna).
  repeat split.
  all: try (members; intros Hin; try tauto; distinct_messages; assumption).
  all: intros Hb; unfold all_warnings, typography_warnings, motion_warnings,
         geometry_warnings; rewrite Hb; cbn [fired];
       rewrite !elem_of_app, list_elem_of_singleton; tauto.
Qed.

End ValidatorColorRules.

(** ** The rules on sample documents *)

Definition with_motion (m : Motion) (p : Primitives) : Primitives :=
  {| color := color p; typography := typography p; motion := Some m; geometry := geometry p |}.

(** The sample with a condensed Roboto, in capitals, as its heading font. *)
Definition roboto_heading_dna : DesignDNA :=
  with_primitives
    (with_typography
       {| scale := scale sample_typography;
          families := Some {| heading := Some ["ROBOTO-Condensed"; "sans-serif"]%string;
                              body := Some ["Satoshi"; "sans-serif"]%string;
                              mono := None |} |}
       sample_primitives)
    sample_dna.

(** The sample with [Inter Tight] as its body font. *)
Definition inter_tight_dna : DesignDNA :=
  with_primitives
    (with_typography
       {| scale := scale sample_typography;
          families := Some {| heading := Some ["Fraunces"; "serif"]%string;
                              body := Some ["Inter Tight"; "sans-serif"]%string;
                              mono := None |} |}
       sample_primitives)
    sample_dna.

(** The sample with a default spring that [springs] does not list. *)
Definition bold_spring_dna : DesignDNA :=
  with_primitives
    (with_motion {| springs := springs sample_motion;
                    defaultSpring := Some "bold"%string;
                    reducedMotion := reducedMotion sample_motion |}
       sample_primitives)
    sample_dna.

(** The sample with a spacing base of 0. *)
Definition zero_spacing_dna : DesignDNA :=
  with_primitives
    (with_geometry {| borderRadius := borderRadius sample_geometry;
                      spacing := Some {| spacing_base := Some (num 0);
                                         spacing_scale := None |} |}
       sample_primitives)
    sample_dna.

(** The sample with the text color [ink] on its background [paper]. *)
Definition ink_dna : DesignDNA :=
  with_primitives
    (with_color
       {| model := model sample_color;
          palette := Some (<[ "text"%string := ink ]> {[ "background"%string := paper ]});
          contrastRatios := contrastRatios sample_color |}
       sample_primitives)
    sample_dna.

(** X13 on the sample document. *)
Lemma validateDesignDNA_is_rule_table_witness :
  reads_ok sample_dna = true
  /\ @validateDesignDNA lightness_chroma plain_format sample_dna
     = Return (@report_of lightness_chroma plain_format sample_dna)
  /\ @report_of lightness_chroma plain_format sample_dna = clean_report.
Proof.
  assert (Hname : defaultSpring_key sample_dna ∉ inherited_names).
  { intros Hin. apply list_elem_of_In in Hin. vm_compute in Hin.
    repeat (destruct Hin as [Hin|Hin]; [discriminate Hin|]). exact Hin. }
  assert (Hwords : Forall (fun p => ascii_only p = true)
                     (default [] (personality_of sample_dna)))
    by (repeat constructor).
  assert (Hfonts : Forall (fun font => ascii_only font = true) (first_fonts sample_dna))
    by (repeat constructor).
  split; [reflexivity|].
  split; [|vm_compute; reflexivity].
  exact (@validateDesignDNA_is_rule_table lightness_chroma plain_format sample_dna
           Hname Hwords Hfonts).
Defined.

(** X14 on the document that states next to nothing. *)
Lemma scores_in_range_witness :
  @validateDesignDNA lightness_chroma plain_format bare_dna
  = Return (@report_of lightness_chroma plain_format bare_dna)
  /\ Forall (fun x => 1 <= x <= 4)
       (Object_values (scores (@report_of lightness_chroma plain_format bare_dna)))
  /\ colorSystem (scores (@report_of lightness_chroma plain_format bare_dna)) <> 2.
Proof.
  assert (H : @validateDesignDNA lightness_chroma plain_format bare_dna
              = Return (@report_of lightness_chroma plain_format bare_dna))
    by (vm_compute; reflexivity).
  split; [exact H|].
  pose proof (@scores_in_range lightness_chroma plain_format _ _ H) as (Hr & Hc & _).
  split; [exact Hr|exact Hc].
Defined.

(** X15 on the sample document: no error, no generic keyword, valid. *)
Lemma valid_iff_no_error_no_generic_witness :
  @validateDesignDNA lightness_chroma plain_format sample_dna = Return clean_report
  /\ errors clean_report = []
  /\ Forall (fun p => toLowerCase p ∉ GENERIC_PERSONALITY_WORDS)
       (default [] (personality_of sample_dna)).
Proof.
  assert (H : @validateDesignDNA lightness_chroma plain_format sample_dna
              = Return clean_report) by (vm_compute; reflexivity).
  split; [exact H|].
  assert (Hascii : Forall (fun p => ascii_only p = true)
                     (default [] (personality_of sample_dna)))
    by (repeat constructor).
  exact (proj1 (@valid_iff_no_error_no_generic lightness_chroma plain_format _ _ H Hascii)
           eq_refl).
Defined.

(** X16 on the heading font [ROBOTO-Condensed]. *)
Lemma banned_heading_fails_witness :
  @validateDesignDNA lightness_chroma plain_format roboto_heading_dna
  = Return (@report_of lightness_chroma plain_format roboto_heading_dna)
  /\ typographySystem (scores (@report_of lightness_chroma plain_format roboto_heading_dna)) = 1
  /\ valid (@report_of lightness_chroma plain_format roboto_heading_dna) = false.
Proof.
  assert (H : @validateDesignDNA lightness_chroma plain_format roboto_heading_dna
              = Return (@report_of lightness_chroma plain_format roboto_heading_dna))
    by (vm_compute; reflexivity).
  split; [exact H|].
  assert (Hin : "roboto"%string ∈ BANNED_FONTS) by (unfold BANNED_FONTS; repeat constructor).
  exact (proj2 (@banned_heading_fails lightness_chroma plain_format _ _
                  "ROBOTO-Condensed" "" "roboto" "-condensed" H eq_refl Hin eq_refl)).
Defined.

(** X17 on the body font [Inter Tight]. *)
Lemma banned_body_fails_witness :
  @validateDesignDNA lightness_chroma plain_format inter_tight_dna
  = Return (@report_of lightness_chroma plain_format inter_tight_dna)
  /\ typographySystem (scores (@report_of lightness_chroma plain_format inter_tight_dna)) <= 2
  /\ valid (@report_of lightness_chroma plain_format inter_tight_dna) = false.
Proof.
  assert (H : @validateDesignDNA lightness_chroma plain_format inter_tight_dna
              = Return (@report_of lightness_chroma plain_format inter_tight_dna))
    by (vm_compute; reflexivity).
  split; [exact H|].
  assert (Hin : "inter"%string ∈ BANNED_FONTS) by (unfold BANNED_FONTS; repeat constructor).
  assert (Hne : toLowerCase "Inter Tight" <> "inter"%string) by (vm_compute; discriminate).
  exact (proj2 (@banned_body_fails lightness_chroma plain_format _ _
                  "Inter Tight" "" "inter" " tight" H eq_refl Hin eq_refl Hne)).
Defined.

(** X18 on the default spring [bold], which the sample does not list. *)
Lemma missing_default_spring_fails_witness :
  @validateDesignDNA lightness_chroma plain_format bold_spring_dna
  = Return (@report_of lightness_chroma plain_format bold_spring_dna)
  /\ motionSystem (scores (@report_of lightness_chroma plain_format bold_spring_dna)) <= 2
  /\ valid (@report_of lightness_chroma plain_format bold_spring_dna) = false.
Proof.
  assert (H : @validateDesignDNA lightness_chroma plain_format bold_spring_dna
              = Return (@report_of lightness_chroma plain_format bold_spring_dna))
    by (vm_compute; reflexivity).
  split; [exact H|].
  assert (Hname : defaultSpring_key bold_spring_dna ∉ inherited_names).
  { intros Hin. apply list_elem_of_In in Hin. vm_compute in Hin.
    repeat (destruct Hin as [Hin|Hin]; [discriminate Hin|]). exact Hin. }
  assert (Hkey : springs_of bold_spring_dna
                 ≫= (fun springs => springs !! defaultSpring_key bold_spring_dna) = None)
    by (vm_compute; reflexivity).
  pose proof (@missing_default_spring_fails lightness_chroma plain_format _ _ H Hname Hkey)
    as (_ & Hs & Hv & _).
  split; [exact Hs|exact Hv].
Defined.

(** X19 on a spacing base of 0. *)
Lemma spacing_base_rule_witness :
  @validateDesignDNA lightness_chroma plain_format zero_spacing_dna
  = Return (@report_of lightness_chroma plain_format zero_spacing_dna)
  /\ spacing_message ∈ errors (@report_of lightness_chroma plain_format zero_spacing_dna)
  /\ geometricSystem (scores (@report_of lightness_chroma plain_format zero_spacing_dna)) = 2.
Proof.
  assert (H : @validateDesignDNA lightness_chroma plain_format zero_spacing_dna
              = Return (@report_of lightness_chroma plain_format zero_spacing_dna))
    by (vm_compute; reflexivity).
  split; [exact H|].
  assert (Hzero : spacing_base_of zero_spacing_dna = None
                  \/ spacing_base_of zero_spacing_dna = Some (num 0))
    by (right; reflexivity).
  pose proof (@spacing_base_rule lightness_chroma plain_format _ _ H) as (He & Hs & _).
  split; [apply He; exact Hzero|apply Hs; exact Hzero].
Defined.

(** X20 on the text color [ink], whose contrast on [paper] is 103/23. *)
Lemma low_contrast_fails_witness :
  @validateDesignDNA lightness_chroma plain_format ink_dna
  = Return (@report_of lightness_chroma plain_format ink_dna)
  /\ (@getContrastRatio lightness_chroma ink paper < num 4.5)%Qc
  /\ colorSystem (scores (@report_of lightness_chroma plain_format ink_dna)) = 1
  /\ valid (@report_of lightness_chroma plain_format ink_dna) = false.
Proof.
  assert (H : @validateDesignDNA lightness_chroma plain_format ink_dna
              = Return (@report_of lightness_chroma plain_format ink_dna))
    by (vm_compute; reflexivity).
  split; [exact H|].
  assert (Hlow : (@getContrastRatio lightness_chroma ink paper < num 4.5)%Qc)
    by (vm_compute; reflexivity).
  split; [exact Hlow|].
  pose proof (@low_contrast_fails lightness_chroma plain_format _ _ ink paper
                H eq_refl eq_refl Hlow) as (_ & Hs & Hv & _).
  split; [exact Hs|exact Hv].
Defined.

(** X21 on the sample document, whose palette has no text color and
    which states a contrast of 12.5. *)
Lemma contrast_check_skipped_witness :
  @validateDesignDNA lightness_chroma plain_format sample_dna
  = Return (@report_of lightness_chroma plain_format sample_dna)
  /\ palette_color "text" sample_dna = None
  /\ colorSystem (scores (@report_of lightness_chroma plain_format sample_dna)) = 4.
Proof.
  assert (H : @validateDesignDNA lightness_chroma plain_format sample_dna
              = Return (@report_of lightness_chroma plain_format sample_dna))
    by (vm_compute; reflexivity).
  split; [exact H|]. split; [reflexivity|].
  exact (proj1 (@contrast_check_skipped lightness_chroma plain_format _ _ H
                  (or_introl eq_refl))).
Defined.

(** X22 on the document that states next to nothing: its heading stack
    is empty. *)
Lemma warnings_rule_witness :
  @validateDesignDNA flat_chroma plain_format bare_dna
  = Return (@report_of flat_chroma plain_format bare_dna)
  /\ fallback_warning ∈ warnings (@report_of flat_chroma plain_format bare_dna).
Proof.
  assert (H : @validateDesignDNA flat_chroma plain_format bare_dna
              = Return (@report_of flat_chroma plain_format bare_dna))
    by (vm_compute; reflexivity).
  split; [exact H|].
  apply (proj1 (@warnings_rule flat_chroma plain_format _ _ H)).
  cbn. lia.
Defined.
